(** * Sneddon fracture-opening convergence test (PorePy, example11)

    A shallow embedding of
    [examples/example11/fracture_opening_convergence_tests_sneddon.py]
    and the properties its specification states about it.

    Names.  The functions of the script read module-level names.  Which of
    them are bound is taken from the import statements of the script and
    from [porepy/__init__.py]: a name that is bound nowhere raises
    [NameError] where it is read, and an attribute that the package does not
    have raises [AttributeError].

    Numbers.  The script computes with numpy [float64] values.  They are
    modelled twice.  [Np.npfloat] is exact real arithmetic extended with the
    two infinities and [nan]: rounding, overflow, underflow and the sign of
    zero are abstracted away, and the special values behave as IEEE 754
    prescribes.  It gives the formulas that the code evaluates.  [F64] is
    binary64 arithmetic itself, with which the error norms can be run on
    concrete arrays; results that are equal over the real numbers may differ
    there.

    Failures.  Python exceptions are modelled by the [result] type; the
    convergence loop, which appends to lists while it may still fail, is
    modelled in a state-and-exception monad over the record of those lists. *)

From Stdlib Require Import Reals Lra Lia List ZArith Bool.
From Stdlib Require String PrimFloat.
Import ListNotations.

Set Implicit Arguments.

(* ================================================================== *)
(** * Exceptions *)

Inductive exn : Type :=
| IndexError          (* sequence index out of range, mask of the wrong size *)
| ValueError          (* shapes that do not broadcast, reduction of an empty array *)
| KeyError            (* missing dictionary key *)
| ZeroDivisionError   (* Python division by zero, [np.arange] with a zero step *)
| UnboundLocalError   (* local variable read before assignment *)
| NameError           (* global name that is bound nowhere *)
| AttributeError      (* attribute that a module does not have *)
| AssertionError.     (* failed [assert] *)

Inductive result (A : Type) : Type :=
| Ok (a : A)
| Raise (e : exn).

Arguments Ok {A} a.
Arguments Raise {A} e.

Definition rbind {A B : Type} (r : result A) (k : A -> result B) : result B :=
  match r with
  | Ok a => k a
  | Raise e => Raise e
  end.

Declare Scope result_scope.
Delimit Scope result_scope with result.

Notation "x <- c1 ;; c2" := (rbind c1 (fun x => c2))
  (at level 61, c1 at next level, right associativity) : result_scope.
Notation "' p <- c1 ;; c2" := (rbind c1 (fun x => match x with p => c2 end))
  (at level 61, p pattern, c1 at next level, right associativity) : result_scope.

(* ================================================================== *)
(** * The names that are bound when the script runs *)

Module Names.

Import String.
Local Open Scope string_scope.

Definition name : Type := string.

(** The global names of the script: those bound by its import statements
    (lines 22-30), by its [def] statements, and by the assignments under
    [if __name__ == '__main__'] (lines 346-382). *)
Definition script_names : list name :=
  [ "sps"; "np"; "plt"; "pp"; "set_bc_mech_tension_sneddon"; "LSFactory";
    "cartesian_2d"; "simplex_2d"; "fracture_2d"; "fracture_3d";
    "fracture_penny"; "simplex_3d"; "simplex_3d_penny";
    "analytical_displacements"; "assign_parameters"; "solve"; "compute_eta";
    "L2_norm"; "L2_error"; "run_multiple_and_plot"; "plot_against_eta";
    "save";
    "penny"; "plot"; "export"; "file_name"; "folder_name"; "from_gmsh";
    "height"; "length"; "center"; "beta"; "a"; "t"; "p0"; "sigma";
    "n_cells"; "h"; "cartesian_2d_of_nc"; "simplex_2d_of_h" ].

(** The attributes of the package [porepy], which the script imports as
    [pp]: the names that the statements of [porepy/__init__.py] bind, and
    the sub-packages that its imports load. *)
Definition porepy_names : list name :=
  [ "__version__"; "__all__";
    "Mpsa"; "Tpfa"; "TpfaMixedDim"; "Mpfa"; "MpfaMixedDim"; "Biot";
    "Integral"; "IntegralMixedDim"; "EllipticModel"; "EllipticDataAssigner";
    "DualVEM"; "DualVEMMixedDim"; "DualSource"; "DualSourceMixedDim";
    "DualEllipticModel";
    "Upwind"; "UpwindMixedDim"; "MassMatrix"; "InvMassMatrix";
    "Grid"; "GridBucket"; "CartGrid"; "TensorGrid"; "TriangleGrid";
    "TetrahedralGrid"; "StructuredTriangleGrid"; "StructuredTetrahedralGrid";
    "Fracture"; "FractureNetwork";
    "BoundaryCondition"; "SecondOrder"; "FourthOrder"; "Parameters";
    "Exporter"; "plot_grid";
    "cg"; "meshing"; "importer"; "structured"; "simplex"; "coarsening";
    "units"; "fvutils"; "error";
    "numerics"; "grids"; "fracs"; "params"; "viz"; "utils" ].

(** The names that the modelled functions read and that decide whether they
    can run: [cg] in [compute_eta] (line 226), [pp.FracturedMpsa] in [solve]
    (line 200). *)
Definition n_pp : name := "pp".
Definition n_cg : name := "cg".
Definition a_FracturedMpsa : name := "FracturedMpsa".

Definition bound (names : list name) (x : name) : bool :=
  existsb (String.eqb x) names.

(** Reading the global name [x]. *)
Definition global (x : name) : result unit :=
  if bound script_names x then Ok tt else Raise NameError.

(** Reading [pp.x]. *)
Definition pp_attr (x : name) : result unit :=
  rbind (global n_pp)
        (fun _ => if bound porepy_names x then Ok tt else Raise AttributeError).

End Names.

(* ================================================================== *)
(** * Floating-point values with exact arithmetic *)

Module Np.

Open Scope R_scope.

Inductive npfloat : Type :=
| Fin (x : R)
| PInf
| NInf
| NaN.

Inductive sgn : Type := Neg | Zero | Pos.

Definition Rsgn (x : R) : sgn :=
  if Rlt_dec x 0 then Neg else if Rlt_dec 0 x then Pos else Zero.

Definition fsgn (x : npfloat) : option sgn :=
  match x with
  | Fin r => Some (Rsgn r)
  | PInf => Some Pos
  | NInf => Some Neg
  | NaN => None
  end.

Definition smul (s t : sgn) : sgn :=
  match s, t with
  | Zero, _ | _, Zero => Zero
  | Pos, Pos | Neg, Neg => Pos
  | Pos, Neg | Neg, Pos => Neg
  end.

(** The infinity of a given sign; an undetermined sign ([0 * inf], [0 / 0])
    is [nan]. *)
Definition finf (s : sgn) : npfloat :=
  match s with
  | Pos => PInf
  | Neg => NInf
  | Zero => NaN
  end.

Definition fneg (x : npfloat) : npfloat :=
  match x with
  | Fin r => Fin (- r)
  | PInf => NInf
  | NInf => PInf
  | NaN => NaN
  end.

Definition fadd (x y : npfloat) : npfloat :=
  match x, y with
  | Fin a, Fin b => Fin (a + b)
  | NaN, _ | _, NaN => NaN
  | PInf, NInf | NInf, PInf => NaN
  | PInf, _ | _, PInf => PInf
  | NInf, _ | _, NInf => NInf
  end.

Definition fsub (x y : npfloat) : npfloat := fadd x (fneg y).

Definition fmul (x y : npfloat) : npfloat :=
  match x, y with
  | Fin a, Fin b => Fin (a * b)
  | _, _ =>
      match fsgn x, fsgn y with
      | Some s, Some t => finf (smul s t)
      | _, _ => NaN
      end
  end.

(** Division.  A zero divisor counts as [+0]. *)
Definition fdiv (x y : npfloat) : npfloat :=
  match x, y with
  | Fin a, Fin b => if Req_dec_T b 0 then finf (Rsgn a) else Fin (a / b)
  | Fin _, (PInf | NInf) => Fin 0
  | PInf, Fin b => if Rlt_dec b 0 then NInf else PInf
  | NInf, Fin b => if Rlt_dec b 0 then PInf else NInf
  | _, _ => NaN
  end.

(** Division of Python numbers, [x / y]: a zero divisor raises. *)
Definition py_truediv (x y : npfloat) : result npfloat :=
  match y with
  | Fin b => if Req_dec_T b 0 then Raise ZeroDivisionError else Ok (fdiv x y)
  | _ => Ok (fdiv x y)
  end.

Definition fabs (x : npfloat) : npfloat :=
  match x with
  | Fin r => Fin (Rabs r)
  | PInf | NInf => PInf
  | NaN => NaN
  end.

Definition fsqrt (x : npfloat) : npfloat :=
  match x with
  | Fin r => if Rlt_dec r 0 then NaN else Fin (sqrt r)
  | PInf => PInf
  | NInf | NaN => NaN
  end.

Definition fcos (x : npfloat) : npfloat :=
  match x with
  | Fin r => Fin (cos r)
  | _ => NaN
  end.

Definition fsin (x : npfloat) : npfloat :=
  match x with
  | Fin r => Fin (sin r)
  | _ => NaN
  end.

(** [x < y] *)
Definition fltb (x y : npfloat) : bool :=
  match x, y with
  | Fin a, Fin b => if Rlt_dec a b then true else false
  | NaN, _ | _, NaN => false
  | _, NInf => false
  | PInf, _ => false
  | NInf, _ => true
  | Fin _, PInf => true
  end.

(** [x <= y] *)
Definition fleb (x y : npfloat) : bool :=
  match x, y with
  | Fin a, Fin b => if Rle_dec a b then true else false
  | NaN, _ | _, NaN => false
  | NInf, _ => true
  | _, PInf => true
  | _, NInf => false
  | PInf, _ => false
  end.

(** [x > y] *)
Definition fgtb (x y : npfloat) : bool := fltb y x.

(** [np.maximum], which propagates [nan]. *)
Definition fmaximum (x y : npfloat) : npfloat :=
  match x, y with
  | NaN, _ | _, NaN => NaN
  | _, _ => if fltb x y then y else x
  end.

(** Literals of the script. *)
Definition f0 : npfloat := Fin 0.
Definition f1 : npfloat := Fin 1.
Definition f2 : npfloat := Fin 2.
Definition np_pi : npfloat := Fin PI.

(** [np.isclose(a, b)] with the default tolerances [rtol = 1e-5] and
    [atol = 1e-8]: [|a - b| <= atol + rtol * |b|] (two equal infinities are
    close as well; [nan] is close to nothing). *)
Definition rtol : npfloat := Fin (1 / 100000).
Definition atol : npfloat := Fin (1 / 100000000).

Definition isclose (a b : npfloat) : bool :=
  match a, b with
  | Fin _, Fin _ => fleb (fabs (fsub a b)) (fadd atol (fmul rtol (fabs b)))
  | PInf, PInf | NInf, NInf => true
  | _, _ => false
  end.

End Np.

(* ================================================================== *)
(** * Arrays: the numpy operations the script uses *)

Module Arr.

Import Np.
Open Scope result_scope.

(** Python index normalisation: a negative index counts from the end. *)
Definition py_index (len : nat) (i : Z) : result nat :=
  if (0 <=? i)%Z then
    if (i <? Z.of_nat len)%Z then Ok (Z.to_nat i) else Raise IndexError
  else
    if (- Z.of_nat len <=? i)%Z then Ok (Z.to_nat (Z.of_nat len + i))
    else Raise IndexError.

(** [l[i]] *)
Definition getitem {A : Type} (l : list A) (i : Z) : result A :=
  n <- py_index (length l) i ;;
  match nth_error l n with
  | Some a => Ok a
  | None => Raise IndexError
  end.

(** [l[idx]] for a one-dimensional integer array [idx]. *)
Fixpoint take {A : Type} (l : list A) (idx : list Z) : result (list A) :=
  match idx with
  | [] => Ok []
  | i :: idx' =>
      x <- getitem l i ;;
      xs <- take l idx' ;;
      Ok (x :: xs)
  end.

(** [np.arange(start, stop, step)] on integers: [ceil((stop - start) / step)]
    values, none when that is not positive. *)
Definition arange (start stop step : Z) : result (list Z) :=
  if (step =? 0)%Z then Raise ZeroDivisionError
  else
    let n := Z.to_nat (- ((- (stop - start)) / step)) in
    Ok (map (fun k => (start + Z.of_nat k * step)%Z) (seq 0 n)).

Fixpoint map2 {A B C : Type} (f : A -> B -> C) (xs : list A) (ys : list B)
  : list C :=
  match xs, ys with
  | x :: xs', y :: ys' => f x y :: map2 f xs' ys'
  | _, _ => []
  end.

(** A binary operation applied elementwise to two one-dimensional arrays:
    equal lengths, or one of them of length one, which is then stretched. *)
Definition broadcast2 {A B C : Type} (f : A -> B -> C)
  (xs : list A) (ys : list B) : result (list C) :=
  if Nat.eqb (length xs) (length ys) then Ok (map2 f xs ys)
  else
    match xs, ys with
    | [x], _ => Ok (map (f x) ys)
    | _, [y] => Ok (map (fun x => f x y) xs)
    | _, _ => Raise ValueError
    end.

Definition np_sub : list npfloat -> list npfloat -> result (list npfloat) :=
  broadcast2 fsub.
Definition np_multiply : list npfloat -> list npfloat -> result (list npfloat) :=
  broadcast2 fmul.
Definition np_square (v : list npfloat) : list npfloat :=
  map (fun x => fmul x x) v.
Definition np_absolute (v : list npfloat) : list npfloat := map fabs v.
Definition np_sqrt (v : list npfloat) : list npfloat := map fsqrt v.

(** [np.sum]; the sum of the empty array is [0.0]. *)
Definition np_sum (v : list npfloat) : npfloat := fold_left fadd v f0.

(** [np.max]; the empty array has no maximum. *)
Definition np_max (v : list npfloat) : result npfloat :=
  match v with
  | [] => Raise ValueError
  | x :: v' => Ok (fold_left fmaximum v' x)
  end.

(** [np.all] *)
Definition np_all (m : list bool) : bool := forallb (fun b => b) m.

Fixpoint mask_select {A : Type} (l : list A) (m : list bool) : list A :=
  match l, m with
  | x :: l', b :: m' =>
      if b then x :: mask_select l' m' else mask_select l' m'
  | _, _ => []
  end.

(** [l[m]] for a boolean mask [m], which must have the length of [l]. *)
Definition getmask {A : Type} (l : list A) (m : list bool) : result (list A) :=
  if Nat.eqb (length l) (length m) then Ok (mask_select l m)
  else Raise IndexError.

End Arr.

(* ================================================================== *)
(** * Error norms (lines 228-235 of the script) *)

Module Norms.

Import Np Arr.
Open Scope result_scope.

(** [def L2_norm(val, area):
       return np.sqrt(np.sum(np.multiply(area, np.square(val))))] *)
Definition L2_norm (val area : list npfloat) : result npfloat :=
  p <- np_multiply area (np_square val) ;;
  Ok (fsqrt (np_sum p)).

(** [def L2_error(v_ref, v_approx, area):
       enum = L2_norm(v_approx - v_ref, area)
       denom = L2_norm(v_ref, area)
       return enum / denom] *)
Definition L2_error (v_ref v_approx area : list npfloat) : result npfloat :=
  d <- np_sub v_approx v_ref ;;
  enum <- L2_norm d area ;;
  denom <- L2_norm v_ref area ;;
  Ok (fdiv enum denom).

(** [L2_error(v_ref[i], v_approx[i], area[i])] for a boolean mask [i]
    (line 260). *)
Definition L2_error_on (i : list bool) (v_ref v_approx area : list npfloat)
  : result npfloat :=
  ref_i <- getmask v_ref i ;;
  approx_i <- getmask v_approx i ;;
  area_i <- getmask area i ;;
  L2_error ref_i approx_i area_i.

End Norms.

(* ================================================================== *)
(** * The error norms in binary64 *)

(** Lines 228-235 and the mask of line 259 once more, on the binary64
    numbers that numpy computes with: the primitive floating-point numbers,
    whose operations round to nearest as IEEE 754 prescribes.  The sum of an
    array adds its entries from the left, starting from zero; numpy may add
    in another order, which makes no difference for the arrays of at most
    two entries that are evaluated below. *)
Module F64.

Import Arr PrimFloat.
Open Scope result_scope.

Definition np_sub : list float -> list float -> result (list float) :=
  broadcast2 sub.
Definition np_multiply : list float -> list float -> result (list float) :=
  broadcast2 mul.
Definition np_square (v : list float) : list float := map (fun x => mul x x) v.
Definition np_sum (v : list float) : float := fold_left add v zero.

(** [def L2_norm(val, area):
       return np.sqrt(np.sum(np.multiply(area, np.square(val))))] *)
Definition L2_norm (val area : list float) : result float :=
  p <- np_multiply area (np_square val) ;;
  Ok (sqrt (np_sum p)).

(** [def L2_error(v_ref, v_approx, area):
       enum = L2_norm(v_approx - v_ref, area)
       denom = L2_norm(v_ref, area)
       return enum / denom] *)
Definition L2_error (v_ref v_approx area : list float) : result float :=
  d <- np_sub v_approx v_ref ;;
  enum <- L2_norm d area ;;
  denom <- L2_norm v_ref area ;;
  Ok (div enum denom).

(** [L2_error(v_ref[i], v_approx[i], area[i])] (line 260) *)
Definition L2_error_on (i : list bool) (v_ref v_approx area : list float)
  : result float :=
  ref_i <- getmask v_ref i ;;
  approx_i <- getmask v_approx i ;;
  area_i <- getmask area i ;;
  L2_error ref_i approx_i area_i.

(** [i = eta<(.9*a)] (line 259); [.9] is the binary64 number nearest to
    nine tenths, the quotient of 9 by 10. *)
Definition interior_mask (a : float) (eta : list float) : list bool :=
  map (fun e => ltb e (mul (div 9 10) a)) eta.


(** The outcome of a comparison of two results that are numbers. *)
Definition lt_result (x y : result float) : bool :=
  match x, y with
  | Ok a, Ok b => ltb a b
  | _, _ => false
  end.



End F64.

(* ================================================================== *)
(** * Grids and grid buckets *)

Module Grids.

Import Np Arr.
Open Scope result_scope.

(** A point of [face_centers]: one column of the [3 x num_faces] array. *)
Definition point : Type := (npfloat * npfloat * npfloat)%type.

(** The attributes of a PorePy grid that the script reads.  [frac_pairs] is
    a [2 x n] integer array and [face_centers] a [3 x num_faces] array; both
    are stored by columns, so that [frac_pairs[0]] is [map fst frac_pairs]. *)
Record Grid : Type := {
  dim : Z;
  num_cells : Z;
  frac_pairs : list (Z * Z);
  face_centers : list point;
  face_areas : list npfloat
}.

(** The node data of a grid: the dictionary entries the script reads;
    [None] is a missing key. *)
Record NodeData : Type := {
  shear_modulus : option npfloat;
  Poisson : option npfloat
}.

(** Modelled from the spec: the grid bucket (class [pp.GridBucket], not part
    of the excerpt) "owns one full-dimensional grid and associated
    lower-dimensional grids, plus a node-indexed mapping from grid to a
    parameter record".  It is the list of its nodes, each a grid with its
    data. *)
Record GridBucket : Type := {
  nodes : list (Grid * NodeData)
}.

(** [d[key]] *)
Definition dict_get {A : Type} (entry : option A) : result A :=
  match entry with
  | Some v => Ok v
  | None => Raise KeyError
  end.

Definition dims (gb : GridBucket) : list Z :=
  map (fun n => dim (fst n)) (nodes gb).

(** [gb.dim_max()]: the largest grid dimension; the bucket must not be empty. *)
Definition dim_max (gb : GridBucket) : result Z :=
  match dims gb with
  | [] => Raise ValueError
  | d :: ds => Ok (fold_left Z.max ds d)
  end.

(** [gb.dim_min()] *)
Definition dim_min (gb : GridBucket) : result Z :=
  match dims gb with
  | [] => Raise ValueError
  | d :: ds => Ok (fold_left Z.min ds d)
  end.

(** [gb.grids_of_dimension(d)], each grid with its node data
    ([gb.node_props(g)]). *)
Definition grids_of_dimension (gb : GridBucket) (d : Z) : list (Grid * NodeData) :=
  filter (fun n => (dim (fst n) =? d)%Z) (nodes gb).

(** Modelled from the spec: [cg.dist_point_pointset] (module
    [porepy.utils.comp_geom], not part of the excerpt) gives for every point
    of a point set its Euclidean distance to a given point; the arc-length
    coordinate is the "distance from the fracture midpoint (or from a
    reference center ...)". *)
Definition dist_point_pointset (p : list point) (pset : point) : list npfloat :=
  map (fun q =>
         match q, pset with
         | (x, y, z), (cx, cy, cz) =>
             let dx := fabs (fsub x cx) in
             let dy := fabs (fsub y cy) in
             let dz := fabs (fsub z cz) in
             fsqrt (fadd (fadd (fmul dx dx) (fmul dy dy)) (fmul dz dz))
         end) p.

End Grids.

(* ================================================================== *)
(** * The script *)

Module Sneddon.

Import Np Arr Norms Grids Names.
Open Scope result_scope.

(** The module-level variables that the functions of the script read; they
    are assigned under [if __name__ == '__main__'].  The fields carry the
    prefix [g_] to keep them apart from the parameters of the same names. *)
Record Globals : Type := {
  g_penny : bool;
  g_plot : bool;
  g_export : bool;
  g_height : npfloat;
  g_length : npfloat;
  g_center : point;
  g_beta : npfloat;
  g_a : npfloat;
  g_p0 : npfloat
}.

(** ** Fracture geometry (lines 68-79) *)

(** [def fracture_2d(length, height, a, beta, fracture)]: a list of
    [2 x 2] arrays [[x_0, x_1], [y_0, y_1]]. *)
Definition fracture_2d (length height a beta : npfloat) (fracture : bool)
  : list (list (list npfloat)) :=
  if fracture then
    let y_0 := fsub (fdiv height f2) (fmul a (fcos beta)) in
    let x_0 := fsub (fdiv length f2) (fmul a (fsin beta)) in
    let y_1 := fadd (fdiv height f2) (fmul a (fcos beta)) in
    let x_1 := fadd (fdiv length f2) (fmul a (fsin beta)) in
    [ [ [x_0; x_1];
        [y_0; y_1] ] ]
  else [].

(** The index arrays that [analytical_displacements] returns as [frac_ind]:
    [np.array([frac_ind_1, frac_ind_2])] is of shape [(2, n)] when both are
    one-dimensional and of shape [(2, 2, n)] when both are pairs of rows. *)
Inductive dof_index : Type :=
| Idx2 (frac_ind_1 frac_ind_2 : list Z)
| Idx3 (frac_ind_1 frac_ind_2 : list Z * list Z).

(** [np.array([r1, r2])] of two one-dimensional arrays, which must have one
    length. *)
Definition stack2 (r1 r2 : list Z) : result (list Z * list Z) :=
  if Nat.eqb (List.length r1) (List.length r2) then Ok (r1, r2)
  else Raise ValueError.

Section Script.

Variable G : Globals.

(** The collaborators outside the excerpt: the assignment of parameters and
    boundary conditions to the data of a grid
    ([set_bc_mech_tension_sneddon]), and the discretisation and linear solve
    ([discr.matrix_rhs] followed by [sps.linalg.spsolve], lines 204 and
    208), which may raise. *)
Variable set_bc_mech_tension_sneddon : Grid -> NodeData -> NodeData.
Variable mpsa_spsolve : Grid -> NodeData -> result (list npfloat).

(** ** The fracture in three dimensions (lines 80-90) *)


(** ** Arc length (lines 222-227) *)

(** [def compute_eta(g_h):
       return cg.dist_point_pointset(g_h.face_centers[:, g_h.frac_pairs[0]],
                                     center)]
    The name [cg] is read first, before the arguments are evaluated. *)
Definition compute_eta (g_h : Grid) : result (list npfloat) :=
  _ <- global n_cg ;;
  fc <- take (face_centers g_h) (map fst (frac_pairs g_h)) ;;
  Ok (dist_point_pointset fc (g_center G)).

(** ** Analytical aperture (lines 142-176) *)

(** [def analytical_displacements(gb, a, sigma=1)]: the profile
    [cons * np.sqrt(1 - np.power(eta / a, 2))], the indices of the degrees
    of freedom on the two sides of the fracture, and the arc lengths.  The
    square [np.power(x, 2)] is [x * x].  The parameters [mu] and [nu] are
    taken to be Python numbers, as [p0] and [a] are, so that
    [(1 - nu) / mu] raises for [mu = 0]. *)
Definition analytical_displacements (gb : GridBucket) (a : npfloat)
  : result (list npfloat * dof_index * list npfloat) :=
  dim_h <- dim_max gb ;;
  ' (g_h, d_h) <- getitem (grids_of_dimension gb dim_h) 0 ;;
  mu <- dict_get (shear_modulus d_h) ;;
  nu <- dict_get (Poisson d_h) ;;
  let last_ind := (dim_h - 1)%Z in
  eta <- compute_eta g_h ;;
  q <- py_truediv (fsub f1 nu) mu ;;
  let cons := fmul (fmul (fmul q (g_p0 G)) a) f2 in
  let cons := if g_penny G then fmul cons (fdiv f2 np_pi) else cons in
  let apertures :=
    map (fmul cons)
        (np_sqrt (map (fun e => fsub f1 (fmul (fdiv e a) (fdiv e a))) eta)) in
  let n_f := (num_cells g_h * dim_h)%Z in
  let shape1 := Z.of_nat (List.length (frac_pairs g_h)) in
  let size := (2 * shape1)%Z in
  frac_ind_1 <- arange (n_f + last_ind) (n_f + shape1 * dim_h) dim_h ;;
  frac_ind_2 <- arange (last_ind + n_f + shape1 * dim_h)
                       (last_ind + n_f + size * dim_h) dim_h ;;
  if negb (isclose (g_beta G) (fdiv np_pi f2)) then
    x_ind_1 <- arange n_f (n_f + shape1 * dim_h) dim_h ;;
    x_ind_2 <- arange (n_f + shape1 * dim_h) (n_f + size * dim_h) dim_h ;;
    frac_ind_1 <- stack2 frac_ind_1 x_ind_1 ;;
    frac_ind_2 <- stack2 frac_ind_2 x_ind_2 ;;
    (* the two blocks are stacked in turn, so they need one length *)
    if Nat.eqb (List.length (fst frac_ind_1)) (List.length (fst frac_ind_2))
    then Ok (apertures, Idx3 frac_ind_1 frac_ind_2, eta)
    else Raise ValueError
  else
    ' (frac_ind_1, frac_ind_2) <- stack2 frac_ind_1 frac_ind_2 ;;
    Ok (apertures, Idx2 frac_ind_1 frac_ind_2, eta).

(** ** Parameters (lines 181-192) *)

(** [assign_parameters] writes to the data of every node and leaves the
    grids as they are. *)
Definition assign_parameters (gb : GridBucket) : GridBucket :=
  {| nodes := map (fun n => (fst n, set_bc_mech_tension_sneddon (fst n) (snd n)))
                  (nodes gb) |}.

(** ** Displacement correlation (lines 195-218) *)

(** [def solve(gb, dim_h)].  Line 200 reads [pp.FracturedMpsa] before
    anything else.  The displacement [u] comes from the external
    discretisation and solver.  In the first branch [u[dof_ind]] has the two
    rows [u[frac_ind_1]] and [u[frac_ind_2]], [np.diff(..., axis=0)] is the
    single row "second minus first" and [[0]] selects it.  In the second
    branch [np.linalg.norm(d_u, axis=0)] is the square root of the sum, over
    the two rows of [d_u], of the squared entries.  For any other [beta] no
    branch assigns [aperture], and the [return] statement fails.  An index
    array of the other shape than the branch expects is a [ValueError]. *)
Definition solve (gb : GridBucket) (dim_h : Z)
  : result (list npfloat * list npfloat * list npfloat * list npfloat) :=
  _ <- pp_attr a_FracturedMpsa ;;
  ' (g_h, d_h) <- getitem (grids_of_dimension gb dim_h) 0 ;;
  u <- mpsa_spsolve g_h d_h ;;
  ' (aperture_analytical, dof_ind, eta) <- analytical_displacements gb (g_a G) ;;
  if isclose (g_beta G) (fdiv np_pi f2) then
    match dof_ind with
    | Idx2 frac_ind_1 frac_ind_2 =>
        u_1 <- take u frac_ind_1 ;;
        u_2 <- take u frac_ind_2 ;;
        d <- np_sub u_2 u_1 ;;
        Ok (np_absolute d, aperture_analytical, u, eta)
    | Idx3 _ _ => Raise ValueError
    end
  else if isclose (g_beta G) (fdiv np_pi (Fin 4)) then
    match dof_ind with
    | Idx3 (y_1, x_1) (y_2, x_2) =>
        u_right_y <- take u y_1 ;;
        u_right_x <- take u x_1 ;;
        u_left_y <- take u y_2 ;;
        u_left_x <- take u x_2 ;;
        d_u_y <- np_sub u_right_y u_left_y ;;
        d_u_x <- np_sub u_right_x u_left_x ;;
        s <- broadcast2 fadd (np_square d_u_y) (np_square d_u_x) ;;
        Ok (np_sqrt s, aperture_analytical, u, eta)
    | Idx2 _ _ => Raise ValueError
    end
  else Raise UnboundLocalError.

(** ** Convergence loop (lines 238-299) *)

(** The lists that [run_multiple_and_plot] appends to, one entry per
    resolution. *)
Record records : Type := mkRecords {
  errors : list npfloat;
  errors_I : list npfloat;
  errors_max : list npfloat;
  errors_el : list npfloat;
  apertures : list (list npfloat);
  apertures_a : list (list npfloat);
  fracture_cells : list Z
}.

Definition no_records : records := mkRecords [] [] [] [] [] [] [].

(** Statements that read and extend the lists and may raise: the outcome is
    the lists as they are when the statement ends or raises, with the value
    or the exception. *)
Definition M (A : Type) : Type := records -> records * result A.

Definition ret {A : Type} (a : A) : M A := fun s => (s, Ok a).

Definition bind {A B : Type} (m : M A) (k : A -> M B) : M B :=
  fun s =>
    match m s with
    | (s', Ok a) => k a s'
    | (s', Raise e) => (s', Raise e)
    end.

(** A computation that does not touch the lists. *)
Definition lift {A : Type} (r : result A) : M A := fun s => (s, r).

Definition modify (f : records -> records) : M unit := fun s => (f s, Ok tt).

Definition get : M records := fun s => (s, Ok s).

(** [assert b] *)
Definition py_assert (b : bool) : M unit :=
  if b then ret tt else lift (Raise AssertionError).

Declare Scope loop_scope.
Delimit Scope loop_scope with loop.

Notation "x <- c1 ;; c2" := (bind c1 (fun x => c2))
  (at level 61, c1 at next level, right associativity) : loop_scope.
Notation "' p <- c1 ;; c2" := (bind c1 (fun x => match x with p => c2 end))
  (at level 61, p pattern, c1 at next level, right associativity) : loop_scope.
Notation "c1 ;;; c2" := (bind c1 (fun _ => c2))
  (at level 61, right associativity) : loop_scope.

Definition append_errors (x : npfloat) (s : records) : records :=
  mkRecords (errors s ++ [x]) (errors_I s) (errors_max s) (errors_el s)
            (apertures s) (apertures_a s) (fracture_cells s).
Definition append_errors_I (x : npfloat) (s : records) : records :=
  mkRecords (errors s) (errors_I s ++ [x]) (errors_max s) (errors_el s)
            (apertures s) (apertures_a s) (fracture_cells s).
Definition append_errors_max (x : npfloat) (s : records) : records :=
  mkRecords (errors s) (errors_I s) (errors_max s ++ [x]) (errors_el s)
            (apertures s) (apertures_a s) (fracture_cells s).
Definition append_errors_el (x : npfloat) (s : records) : records :=
  mkRecords (errors s) (errors_I s) (errors_max s) (errors_el s ++ [x])
            (apertures s) (apertures_a s) (fracture_cells s).
Definition append_apertures (x : list npfloat) (s : records) : records :=
  mkRecords (errors s) (errors_I s) (errors_max s) (errors_el s)
            (apertures s ++ [x]) (apertures_a s) (fracture_cells s).
Definition append_apertures_a (x : list npfloat) (s : records) : records :=
  mkRecords (errors s) (errors_I s) (errors_max s) (errors_el s)
            (apertures s) (apertures_a s ++ [x]) (fracture_cells s).
Definition append_fracture_cells (x : Z) (s : records) : records :=
  mkRecords (errors s) (errors_I s) (errors_max s) (errors_el s)
            (apertures s) (apertures_a s) (fracture_cells s ++ [x]).

(** The mask [eta < (.9*a)] of line 259. *)
Definition interior_mask (eta : list npfloat) : list bool :=
  map (fun e => fltb e (fmul (Fin (9 / 10)) (g_a G))) eta.

(** The local variables [gb], [u] and [e], which outlive the loop. *)
Definition locals : Type := (GridBucket * list npfloat * list npfloat)%type.

Variable item : Type.

Open Scope loop_scope.

(** One iteration: lines 247-263.  [function] is the mesher for one
    resolution; plotting (lines 264-266) has no effect on the data. *)
Definition loop_body (function : item -> GridBucket) (it : item) : M locals :=
  let gb := function it in
  dim_h <- lift (dim_max gb) ;;
  n_h <- lift (getitem (grids_of_dimension gb dim_h) 0) ;;
  let g_h := fst n_h in
  let gb := assign_parameters gb in
  dim_h <- lift (dim_max gb) ;;
  ' (aperture, aperture_a, u, eta) <- lift (solve gb dim_h) ;;
  py_assert (np_all (map (fun x => fgtb x f0) aperture)) ;;;
  areas <- lift (take (face_areas g_h) (map fst (frac_pairs g_h))) ;;
  d <- lift (np_sub aperture_a aperture) ;;
  m <- lift (np_max aperture_a) ;;
  let e := map (fun x => fdiv x m) (np_absolute d) in
  err <- lift (L2_error aperture_a aperture areas) ;;
  modify (append_errors err) ;;;
  d <- lift (np_sub aperture_a aperture) ;;
  n <- lift (L2_norm d areas) ;;
  m <- lift (np_max aperture_a) ;;
  modify (append_errors_I (fdiv n (fmul (np_sum areas) m))) ;;;
  e_max <- lift (np_max e) ;;
  modify (append_errors_max e_max) ;;;
  let i := interior_mask eta in
  err_el <- lift (L2_error_on i aperture_a aperture areas) ;;
  modify (append_errors_el err_el) ;;;
  modify (append_apertures aperture) ;;;
  modify (append_apertures_a aperture_a) ;;;
  dim_l <- lift (dim_min gb) ;;
  n_l <- lift (getitem (grids_of_dimension gb dim_l) 0) ;;
  modify (append_fracture_cells (num_cells (fst n_l))) ;;;
  ret (gb, u, e).

(** [for item in nc: ...]; [last] holds the locals of the iteration before. *)
Fixpoint loop (function : item -> GridBucket) (nc : list item)
  (last : option locals) : M (option locals) :=
  match nc with
  | [] => ret last
  | it :: nc' =>
      l <- loop_body function it ;;
      loop function nc' (Some l)
  end.

(** The subscripts and the integer quotients that the plotting block
    (lines 271-295) evaluates. *)
Definition plot_block : M unit :=
  s <- get ;;
  _ <- lift (getitem (errors_el s) 0) ;;
  nc1 <- lift (getitem (fracture_cells s) 0) ;;
  _ <- lift (getitem (fracture_cells s) 1) ;;
  (if (nc1 =? 0)%Z then lift (Raise ZeroDivisionError) else ret tt) ;;;
  _ <- lift (getitem (errors_el s) 1) ;;
  nc1 <- lift (getitem (fracture_cells s) 1) ;;
  _ <- lift (getitem (fracture_cells s) 2) ;;
  (if (nc1 =? 0)%Z then lift (Raise ZeroDivisionError) else ret tt).

(** What [save] does when [export] is set (lines 315-343), which may
    raise. *)
Variable write_vtk : GridBucket -> list npfloat -> list npfloat -> result unit.

(** [def save(gb, u, errors, ..., export=True)] *)
Definition save (gb : GridBucket) (u errs : list npfloat) (export : bool)
  : result unit :=
  if negb export then Ok tt else write_vtk gb u errs.

(** [def run_multiple_and_plot(nc, function)].  After an empty [nc] the
    names [gb], [u] and [e] are unbound. *)
Definition run_multiple_and_plot (nc : list item) (function : item -> GridBucket)
  : M (list npfloat * list npfloat * list npfloat *
       list (list npfloat) * list (list npfloat) *
       list npfloat * GridBucket * list npfloat) :=
  last <- loop function nc None ;;
  (if g_plot G then plot_block else ret tt) ;;;
  match last with
  | None => lift (Raise UnboundLocalError)
  | Some (gb, u, e) =>
      lift (save gb u e (g_export G)) ;;;
      s <- get ;;
      ret (errors s, errors_max s, errors_el s, apertures s, apertures_a s,
           u, gb, e)
  end.

Close Scope loop_scope.

End Script.

End Sneddon.
(* ================================================================== *)
(** * The notions of the specification *)

Module SpecDefs.

Import Np Arr.
Open Scope R_scope.

(** The values that are not strictly positive: what [x > 0] rejects. *)
Definition not_positive (x : npfloat) : Prop :=
  match x with
  | Fin r => r <= 0
  | PInf => False
  | NInf => True
  | NaN => True
  end.

Definition Rsum (l : list R) : R := fold_right Rplus 0 l.

(** [sum(area_i * v_i^2)] *)
Definition weighted_sq_sum (area v : list R) : R :=
  Rsum (map2 (fun w x => w * (x * x)) area v).

(** [||v||_area = sqrt(sum(area_i * v_i^2))] *)
Definition area_norm (area v : list R) : R := sqrt (weighted_sq_sum area v).

(** [approx - ref], elementwise. *)
Definition Rdiff (approx ref : list R) : list R := map2 Rminus approx ref.

(** [||approx - ref||_area / ||ref||_area] *)
Definition relative_L2 (ref approx area : list R) : R :=
  area_norm area (Rdiff approx ref) / area_norm area ref.

(** Cell by cell, the error relative to the reference is at most [K] on the
    interior cells, [|eta| < 0.9*a], and at least [K] on the cells of the
    tip region, [|eta| >= 0.9*a]. *)
Fixpoint tip_errors_larger (a K : R) (eta ref approx : list R) : Prop :=
  match eta, ref, approx with
  | e :: eta', r :: ref', x :: approx' =>
      (if Rlt_dec (Rabs e) (9 / 10 * a)
       then Rabs (x - r) <= K * Rabs r
       else K * Rabs r <= Rabs (x - r))
      /\ tip_errors_larger a K eta' ref' approx'
  | _, _, _ => True
  end.

End SpecDefs.

(* ================================================================== *)
(** * A small configuration *)

(** The parameters of the script's main block (a 50 x 50 domain, a fracture
    of half-length 3, [beta = pi/2], [p0 = 1e-5]) on a grid with two pairs
    of fracture faces. *)
Module Config.

Import Np Arr Grids Sneddon SpecDefs.
Open Scope R_scope.

Definition G_main : Globals :=
  {| g_penny := false; g_plot := true; g_export := false;
     g_height := Fin 50; g_length := Fin 50;
     g_center := (Fin 25, Fin 25, Fin 0);
     g_beta := Fin (PI / 2); g_a := Fin 3; g_p0 := Fin (1 / 100000) |}.

(** The same with an oblique fracture, [beta = pi/4]. *)
Definition G_quarter : Globals :=
  {| g_penny := false; g_plot := true; g_export := false;
     g_height := Fin 50; g_length := Fin 50;
     g_center := (Fin 25, Fin 25, Fin 0);
     g_beta := Fin (PI / 4); g_a := Fin 3; g_p0 := Fin (1 / 100000) |}.

Definition no_data : NodeData := {| shear_modulus := None; Poisson := None |}.

Definition unit_data : NodeData :=
  {| shear_modulus := Some (Fin 1); Poisson := Some (Fin 0) |}.

Definition set_unit_data (g : Grid) (d : NodeData) : NodeData := unit_data.

(** A two-dimensional grid with [n] cells and two pairs of fracture faces. *)
Definition g_rock (n : Z) : Grid :=
  {| dim := 2; num_cells := n;
     frac_pairs := [(0, 2); (1, 3)]%Z;
     face_centers := [(Fin 26, Fin 25, Fin 0); (Fin 27, Fin 25, Fin 0);
                      (Fin 26, Fin 25, Fin 0); (Fin 27, Fin 25, Fin 0)];
     face_areas := [Fin 1; Fin 1; Fin 1; Fin 1] |}.

Definition g_frac : Grid :=
  {| dim := 1; num_cells := 2; frac_pairs := []; face_centers := [];
     face_areas := [] |}.

(** The mesher: the resolution is the number of cells. *)
Definition mesh (n : Z) : GridBucket :=
  {| nodes := [(g_rock n, no_data); (g_frac, no_data)] |}.

(** A displacement with the jumps 1 and 2 across the fracture. *)
Definition u_open : list npfloat :=
  [Fin 0; Fin 0; Fin 0; Fin 0; Fin 0; Fin 0; Fin 0; Fin 1; Fin 0; Fin 2].

Definition solver (g : Grid) (d : NodeData) : result (list npfloat) :=
  Ok u_open.


End Config.

(* ================================================================== *)
(** * Arrays of binary64 numbers for the error norms *)

Module F64Data.

Import PrimFloat.

(** A reference and an approximation whose error is 1 in the interior cell
    and 2 in the tip cell, with unit weights, at the arc lengths 1 and 3 of
    a fracture of half-length 3. *)
Definition tip_ref : list float := [1; 100]%float.
Definition tip_approx : list float := [2; 102]%float.
Definition unit_area : list float := [1; 1]%float.
Definition arc_lengths : list float := [1; 3]%float.
Definition half_length : float := 3%float.



End F64Data.

(* ================================================================== *)
(** * Shapes and records *)

Module RealDefs.

Import Np Arr SpecDefs.

(** Two one-dimensional shapes broadcast when they are equal or one of them
    is one; the result then has the length of the other. *)
Definition broadcasts (m n : nat) : Prop := m = n \/ m = 1%nat \/ n = 1%nat.

Definition broadcast_length (m n : nat) : nat :=
  if Nat.eqb m n then m else if Nat.eqb m 1 then n else m.


End RealDefs.

(* ================================================================== *)
(** * Properties of the arithmetic *)

Module NpFacts.

Import Np SpecDefs.
Open Scope R_scope.

Lemma fltb_Fin (a b : R) : fltb (Fin a) (Fin b) = true <-> a < b.
Proof.
  unfold fltb. destruct (Rlt_dec a b); split; intros; try easy; discriminate.
Qed.

Lemma fltb_Fin_false (a b : R) : fltb (Fin a) (Fin b) = false <-> b <= a.
Proof.
  unfold fltb. destruct (Rlt_dec a b); split; intros; try easy; try lra; discriminate.
Qed.

Lemma fleb_Fin (a b : R) : fleb (Fin a) (Fin b) = true <-> a <= b.
Proof.
  unfold fleb. destruct (Rle_dec a b); split; intros; try easy; discriminate.
Qed.

Lemma fleb_Fin_false (a b : R) : fleb (Fin a) (Fin b) = false <-> b < a.
Proof.
  unfold fleb. destruct (Rle_dec a b); split; intros; try easy; try lra; discriminate.
Qed.

Lemma fdiv_Fin (a b : R) : b <> 0 -> fdiv (Fin a) (Fin b) = Fin (a / b).
Proof.
  intros Hb. unfold fdiv. destruct (Req_dec_T b 0); [contradiction | reflexivity].
Qed.

Lemma fsqrt_Fin (a : R) : 0 <= a -> fsqrt (Fin a) = Fin (sqrt a).
Proof.
  intros Ha. unfold fsqrt. destruct (Rlt_dec a 0); [lra | reflexivity].
Qed.

Lemma fsqrt_Fin_neg (a : R) : a < 0 -> fsqrt (Fin a) = NaN.
Proof.
  intros Ha. unfold fsqrt. destruct (Rlt_dec a 0); [reflexivity | lra].
Qed.

Lemma fsub_Fin (a b : R) : fsub (Fin a) (Fin b) = Fin (a - b).
Proof. reflexivity. Qed.

(** A quotient is a real number only if the divisor is not zero. *)
Lemma fdiv_Fin_inv (a b q : R) :
  fdiv (Fin a) (Fin b) = Fin q -> b <> 0 /\ q = a / b.
Proof.
  unfold fdiv. destruct (Req_dec_T b 0) as [-> | Hb].
  - unfold finf, Rsgn. destruct (Rlt_dec a 0); [discriminate |].
    destruct (Rlt_dec 0 a); discriminate.
  - intros [= <-]. split; [assumption | reflexivity].
Qed.

Lemma fgtb_0_false (x : npfloat) : fgtb x f0 = false <-> not_positive x.
Proof.
  unfold fgtb, f0. destruct x as [r | | |]; simpl.
  - destruct (Rlt_dec 0 r); split; intros; try easy; try lra; discriminate.
  - split; [discriminate | contradiction].
  - split; trivial.
  - split; trivial.
Qed.

(** An absolute value is never below zero, and fails to be above zero only
    for a zero or undefined argument. *)
Lemma fabs_not_neg (x : npfloat) : fltb (fabs x) f0 = false.
Proof.
  unfold f0. destruct x as [r | | |]; simpl; try reflexivity.
  destruct (Rlt_dec (Rabs r) 0) as [H | H]; [| reflexivity].
  pose proof (Rabs_pos r). lra.
Qed.

Lemma fabs_not_positive (x : npfloat) :
  fgtb (fabs x) f0 = false <-> x = NaN \/ x = Fin 0.
Proof.
  rewrite fgtb_0_false. destruct x as [r | | |]; simpl.
  - split.
    + intros H. right. f_equal.
      destruct (Req_dec_T r 0) as [-> | Hr]; [reflexivity |].
      pose proof (Rabs_pos_lt r Hr). lra.
    + intros [H | H]; [discriminate |]. injection H as ->. rewrite Rabs_R0. lra.
  - split; [contradiction | intros [H | H]; discriminate].
  - split; [contradiction | intros [H | H]; discriminate].
  - split; auto.
Qed.

End NpFacts.

(* ================================================================== *)
(** * Properties of the array operations *)

Module ArrFacts.

Import Np Arr SpecDefs NpFacts.
Open Scope R_scope.

Lemma map2_length {A B C : Type} (f : A -> B -> C) (xs : list A) (ys : list B) :
  length xs = length ys -> length (map2 f xs ys) = length xs.
Proof.
  revert ys. induction xs as [| x xs IH]; intros [| y ys] H; simpl in *;
    try discriminate; auto.
Qed.

Lemma map2_map {A B C A' B' : Type} (f : A -> B -> C) (g : A' -> A) (h : B' -> B)
  (xs : list A') (ys : list B') :
  map2 f (map g xs) (map h ys) = map2 (fun x y => f (g x) (h y)) xs ys.
Proof.
  revert ys. induction xs as [| x xs IH]; intros [| y ys]; simpl; auto.
  now rewrite IH.
Qed.

Lemma map_map2 {A B C D : Type} (f : A -> B -> C) (g : C -> D)
  (xs : list A) (ys : list B) :
  map g (map2 f xs ys) = map2 (fun x y => g (f x y)) xs ys.
Proof.
  revert ys. induction xs as [| x xs IH]; intros [| y ys]; simpl; auto.
  now rewrite IH.
Qed.

Lemma map2_ext {A B C : Type} (f g : A -> B -> C) (xs : list A) (ys : list B) :
  (forall x y, f x y = g x y) -> map2 f xs ys = map2 g xs ys.
Proof.
  intros H. revert ys. induction xs as [| x xs IH]; intros [| y ys]; simpl; auto.
  now rewrite H, IH.
Qed.

Lemma map2_map_r {A B C B' : Type} (f : A -> B -> C) (h : B' -> B)
  (xs : list A) (ys : list B') :
  map2 f xs (map h ys) = map2 (fun x y => f x (h y)) xs ys.
Proof.
  revert ys. induction xs as [| x xs IH]; intros [| y ys]; simpl; auto.
  now rewrite IH.
Qed.

Lemma map2_same {A C : Type} (f : A -> A -> C) (xs : list A) :
  map2 f xs xs = map (fun x => f x x) xs.
Proof. induction xs as [| x xs IH]; simpl; auto. now rewrite IH. Qed.

Lemma broadcast2_same_length {A B C : Type} (f : A -> B -> C)
  (xs : list A) (ys : list B) :
  length xs = length ys -> broadcast2 f xs ys = Ok (map2 f xs ys).
Proof.
  intros H. unfold broadcast2. now rewrite H, Nat.eqb_refl.
Qed.

Lemma fold_fadd_Fin (l : list R) (acc : R) :
  fold_left fadd (map Fin l) (Fin acc) = Fin (acc + Rsum l).
Proof.
  revert acc. induction l as [| x l IH]; intros acc; simpl.
  - f_equal. lra.
  - rewrite IH. f_equal. lra.
Qed.

Lemma np_sum_Fin (l : list R) : np_sum (map Fin l) = Fin (Rsum l).
Proof. unfold np_sum, f0. rewrite fold_fadd_Fin. f_equal. lra. Qed.

Lemma np_sub_Fin (xs ys : list R) :
  length xs = length ys ->
  np_sub (map Fin xs) (map Fin ys) = Ok (map Fin (Rdiff xs ys)).
Proof.
  intros H. unfold np_sub. rewrite broadcast2_same_length.
  - f_equal. rewrite map2_map. unfold Rdiff. now rewrite map_map2.
  - now rewrite !length_map.
Qed.

Lemma np_square_Fin (xs : list R) :
  np_square (map Fin xs) = map Fin (map (fun x => x * x) xs).
Proof. unfold np_square. now rewrite !map_map. Qed.

Lemma Rdiff_length (xs ys : list R) :
  length xs = length ys -> length (Rdiff xs ys) = length xs.
Proof. apply map2_length. Qed.

Lemma Rsum_nonneg (l : list R) : Forall (fun x => 0 <= x) l -> 0 <= Rsum l.
Proof. induction 1; simpl; lra. Qed.

Lemma weighted_sq_sum_nonneg (area v : list R) :
  Forall (fun w => 0 <= w) area -> 0 <= weighted_sq_sum area v.
Proof.
  intros H. unfold weighted_sq_sum. apply Rsum_nonneg.
  revert v. induction H as [| w area Hw H IH]; intros [| x v]; simpl;
    constructor; auto.
  pose proof (Rle_0_sqr x) as Hx. unfold Rsqr in Hx. nra.
Qed.

End ArrFacts.

(* ================================================================== *)
(** * The error norms *)

Module NormFacts.

Import Np Arr Norms SpecDefs NpFacts ArrFacts.
Open Scope R_scope.

Lemma L2_norm_Fin (val area : list R) :
  length area = length val ->
  L2_norm (map Fin val) (map Fin area)
  = Ok (fsqrt (Fin (weighted_sq_sum area val))).
Proof.
  intros H. unfold L2_norm, np_multiply.
  rewrite np_square_Fin, broadcast2_same_length by (now rewrite !length_map).
  cbn [rbind]. do 2 f_equal.
  unfold weighted_sq_sum. rewrite map2_map, <- np_sum_Fin. f_equal.
  rewrite map_map2, map2_map_r. reflexivity.
Qed.

Lemma L2_error_Fin (ref approx area : list R) :
  length approx = length ref -> length area = length ref ->
  L2_error (map Fin ref) (map Fin approx) (map Fin area)
  = Ok (fdiv (fsqrt (Fin (weighted_sq_sum area (Rdiff approx ref))))
             (fsqrt (Fin (weighted_sq_sum area ref)))).
Proof.
  intros Ha Hw. unfold L2_error.
  rewrite np_sub_Fin by assumption. cbn [rbind].
  rewrite L2_norm_Fin by (rewrite Rdiff_length; congruence). cbn [rbind].
  rewrite L2_norm_Fin by assumption. reflexivity.
Qed.

Lemma Rdiff_self (v : list R) : Rdiff v v = map (fun _ => 0) v.
Proof.
  unfold Rdiff. rewrite map2_same. apply map_ext. intros x. lra.
Qed.

Lemma weighted_sq_sum_zero (area v : list R) :
  weighted_sq_sum area (map (fun _ => 0) v) = 0.
Proof.
  unfold weighted_sq_sum. revert v.
  induction area as [| w area IH]; intros [| x v]; simpl; try reflexivity.
  rewrite IH. lra.
Qed.


Lemma relative_L2_self (ref area : list R) : relative_L2 ref ref area = 0.
Proof.
  unfold relative_L2, area_norm.
  rewrite Rdiff_self, weighted_sq_sum_zero, sqrt_0. apply Rdiv_0_l.
Qed.

Lemma L2_error_real (ref approx area : list R) :
  length approx = length ref ->
  length area = length ref ->
  Forall (fun w => 0 <= w) area ->
  0 < weighted_sq_sum area ref ->
  L2_error (map Fin ref) (map Fin approx) (map Fin area)
  = Ok (Fin (relative_L2 ref approx area)).
Proof.
  intros Ha Hw Hpos Href.
  rewrite L2_error_Fin by assumption.
  rewrite !fsqrt_Fin by (try apply weighted_sq_sum_nonneg; try lra; assumption).
  rewrite fdiv_Fin; [reflexivity |].
  pose proof (sqrt_lt_R0 _ Href). lra.
Qed.

(** C4.  For real arrays [ref] and [approx] of one length and non-negative
    weights [area] of that length with [sum(area_i * ref_i^2) > 0],
    [L2_error(ref, approx, area)] returns
    [sqrt(sum(area_i * (approx_i - ref_i)^2)) / sqrt(sum(area_i * ref_i^2))];
    and when [approx] equals [ref] it returns exactly [0]. *)
Theorem L2_error_formula (ref approx area : list R) :
  length approx = length ref ->
  length area = length ref ->
  Forall (fun w => 0 <= w) area ->
  0 < weighted_sq_sum area ref ->
  L2_error (map Fin ref) (map Fin approx) (map Fin area)
  = Ok (Fin (sqrt (weighted_sq_sum area (Rdiff approx ref))
             / sqrt (weighted_sq_sum area ref)))
  /\ (approx = ref ->
      L2_error (map Fin ref) (map Fin approx) (map Fin area) = Ok (Fin 0)).
Proof.
  intros Ha Hw Hpos Href.
  pose proof (@L2_error_real ref approx area Ha Hw Hpos Href) as Hval.
  split.
  - exact Hval.
  - intros ->. rewrite Hval, relative_L2_self. reflexivity.
Qed.

Lemma L2_error_formula_witness :
  L2_error (map Fin [1; 2]) (map Fin [3; 2]) (map Fin [1; 1])
  = Ok (Fin (sqrt (weighted_sq_sum [1; 1] (Rdiff [3; 2] [1; 2]))
             / sqrt (weighted_sq_sum [1; 1] [1; 2])))
  /\ ([3; 2] = [1; 2] ->
      L2_error (map Fin [1; 2]) (map Fin [3; 2]) (map Fin [1; 1]) = Ok (Fin 0)).
Proof.
  apply (@L2_error_formula [1; 2] [3; 2] [1; 1]).
  - reflexivity.
  - reflexivity.
  - repeat constructor; lra.
  - unfold weighted_sq_sum; simpl; lra.
Defined.




(** ** Restriction to a mask *)

Lemma mask_select_map {A B : Type} (f : A -> B) (l : list A) (m : list bool) :
  mask_select (map f l) m = map f (mask_select l m).
Proof.
  revert m. induction l as [| x l IH]; intros [| [|] m]; simpl; auto.
  now rewrite IH.
Qed.

Lemma mask_select_length2 {A B : Type} (l : list A) (l' : list B) (m : list bool) :
  length l = length l' ->
  length (mask_select l m) = length (mask_select l' m).
Proof.
  revert l' m. induction l as [| x l IH]; intros [| y l'] [| [|] m] H;
    simpl in *; try discriminate; auto.
Qed.

Lemma mask_select_Rdiff (xs ys : list R) (m : list bool) :
  mask_select (Rdiff xs ys) m = Rdiff (mask_select xs m) (mask_select ys m).
Proof.
  unfold Rdiff. revert ys m.
  induction xs as [| x xs IH]; intros [| y ys] [| [|] m]; simpl; auto;
    try (now rewrite IH); now destruct (mask_select xs m).
Qed.

Lemma mask_select_Forall {A : Type} (P : A -> Prop) (l : list A) (m : list bool) :
  Forall P l -> Forall P (mask_select l m).
Proof.
  intros H. revert m. induction H as [| x l Hx H IH]; intros [| [|] m]; simpl; auto.
Qed.

(** A weighted sum splits into the part under a mask and the part under its
    complement. *)
Lemma weighted_sq_sum_split (area v : list R) (m : list bool) :
  length area = length v -> length m = length v ->
  weighted_sq_sum area v
  = weighted_sq_sum (mask_select area m) (mask_select v m)
    + weighted_sq_sum (mask_select area (map negb m))
                      (mask_select v (map negb m)).
Proof.
  unfold weighted_sq_sum. revert v m.
  induction area as [| w area IH]; intros [| x v] [| b m] Hw Hm;
    simpl in *; try discriminate; try lra.
  injection Hw as Hw. injection Hm as Hm.
  specialize (IH v m Hw Hm). destruct b; simpl; lra.
Qed.

Lemma L2_error_on_Fin (m : list bool) (ref approx area : list R) :
  length approx = length ref -> length area = length ref ->
  length m = length ref ->
  L2_error_on m (map Fin ref) (map Fin approx) (map Fin area)
  = L2_error (map Fin (mask_select ref m)) (map Fin (mask_select approx m))
             (map Fin (mask_select area m)).
Proof.
  intros Ha Hw Hm. unfold L2_error_on, getmask.
  rewrite !length_map, Ha, Hw, Hm, Nat.eqb_refl. cbn [rbind].
  now rewrite !mask_select_map.
Qed.

(** When the relative error is a real number, the reference norm is not
    zero and the error is the quotient of the two norms. *)
Lemma L2_error_Fin_inv (ref approx area : list R) (e : R) :
  length approx = length ref -> length area = length ref ->
  Forall (fun w => 0 <= w) area ->
  L2_error (map Fin ref) (map Fin approx) (map Fin area) = Ok (Fin e) ->
  0 < weighted_sq_sum area ref
  /\ e = sqrt (weighted_sq_sum area (Rdiff approx ref))
         / sqrt (weighted_sq_sum area ref).
Proof.
  intros Ha Hw Hpos H.
  rewrite L2_error_Fin in H by assumption.
  rewrite !fsqrt_Fin in H by (apply weighted_sq_sum_nonneg; assumption).
  injection H as H. apply fdiv_Fin_inv in H. destruct H as [Hd ->].
  split; [| reflexivity].
  pose proof (weighted_sq_sum_nonneg ref Hpos) as Hge.
  destruct (Req_dec_T (weighted_sq_sum area ref) 0) as [H0 | H0]; [| lra].
  rewrite H0, sqrt_0 in Hd. contradiction.
Qed.

Lemma Rdiv_nonneg (a b : R) : 0 <= a -> 0 < b -> 0 <= a / b.
Proof.
  intros Ha Hb. unfold Rdiv. apply Rmult_le_pos; [assumption |].
  left. now apply Rinv_0_lt_compat.
Qed.

(** The mediant inequality under square roots. *)
Lemma sqrt_mediant (ni di nt dt : R) :
  0 <= ni -> 0 < di -> 0 <= nt -> 0 < dt ->
  sqrt ni / sqrt di <= sqrt nt / sqrt dt ->
  sqrt ni / sqrt di <= sqrt (ni + nt) / sqrt (di + dt).
Proof.
  intros Hni Hdi Hnt Hdt H.
  assert (Hcross : ni * dt <= nt * di).
  { rewrite <- !sqrt_div in H by lra.
    apply sqrt_le_0 in H.
    - apply (Rmult_le_compat_r (di * dt)) in H; [| nra].
      replace (ni / di * (di * dt)) with (ni * dt) in H by (field; lra).
      replace (nt / dt * (di * dt)) with (nt * di) in H by (field; lra).
      exact H.
    - apply Rdiv_nonneg; lra.
    - apply Rdiv_nonneg; lra. }
  rewrite <- !sqrt_div by lra.
  apply sqrt_le_1.
  - apply Rdiv_nonneg; lra.
  - apply Rdiv_nonneg; lra.
  - apply (Rmult_le_reg_r (di * (di + dt))); [nra |].
    replace (ni / di * (di * (di + dt))) with (ni * (di + dt)) by (field; lra).
    replace ((ni + nt) / (di + dt) * (di * (di + dt))) with ((ni + nt) * di)
      by (field; lra).
    lra.
Qed.

(** The relative error over the cells under a mask is at most the relative
    error over all cells when the relative error over the remaining cells
    is at least as large. *)
Lemma masked_error_le_global (m : list bool) (ref approx area : list R)
  (e_in e_out : R) :
  length approx = length ref -> length area = length ref ->
  length m = length ref ->
  Forall (fun w => 0 <= w) area ->
  L2_error_on m (map Fin ref) (map Fin approx) (map Fin area) = Ok (Fin e_in) ->
  L2_error_on (map negb m) (map Fin ref) (map Fin approx) (map Fin area)
  = Ok (Fin e_out) ->
  e_in <= e_out ->
  exists e_all,
    L2_error (map Fin ref) (map Fin approx) (map Fin area) = Ok (Fin e_all)
    /\ e_in <= e_all.
Proof.
  intros Ha Hw Hm Hpos Hin Hout Hle.
  rewrite L2_error_on_Fin in Hin, Hout by (rewrite ?length_map; assumption).
  apply L2_error_Fin_inv in Hin, Hout;
    try (apply mask_select_length2; assumption);
    try (apply mask_select_Forall; assumption).
  destruct Hin as [Hdi Hin]. destruct Hout as [Hdt Hout].
  assert (Sd := @weighted_sq_sum_split area ref m Hw Hm).
  assert (Sn : length area = length (Rdiff approx ref)
               /\ length m = length (Rdiff approx ref))
    by (rewrite Rdiff_length by assumption; split; congruence).
  destruct Sn as [Sn1 Sn2].
  assert (Sn := @weighted_sq_sum_split area (Rdiff approx ref) m Sn1 Sn2).
  rewrite !mask_select_Rdiff in Sn.
  exists (sqrt (weighted_sq_sum area (Rdiff approx ref))
          / sqrt (weighted_sq_sum area ref)).
  split.
  - apply L2_error_real; try assumption. lra.
  - rewrite Sn, Sd, Hin. apply sqrt_mediant; try assumption.
    + apply weighted_sq_sum_nonneg, mask_select_Forall; assumption.
    + apply weighted_sq_sum_nonneg, mask_select_Forall; assumption.
    + rewrite <- Hin, <- Hout. exact Hle.
Qed.

(** The same from the cross-multiplied inequality, which needs no
    denominator for the second part. *)
Lemma sqrt_mediant_cross (ni di nt dt : R) :
  0 <= ni -> 0 < di -> 0 <= nt -> 0 <= dt ->
  ni * dt <= nt * di ->
  sqrt ni / sqrt di <= sqrt (ni + nt) / sqrt (di + dt).
Proof.
  intros Hni Hdi Hnt Hdt H.
  rewrite <- !sqrt_div by lra.
  apply sqrt_le_1.
  - apply Rdiv_nonneg; lra.
  - apply Rdiv_nonneg; lra.
  - apply (Rmult_le_reg_r (di * (di + dt))); [nra |].
    replace (ni / di * (di * (di + dt))) with (ni * (di + dt)) by (field; lra).
    replace ((ni + nt) / (di + dt) * (di * (di + dt))) with ((ni + nt) * di)
      by (field; lra).
    lra.
Qed.

Lemma sq_abs (u : R) : Rabs u * Rabs u = u * u.
Proof. rewrite <- Rabs_mult. apply Rabs_right. nra. Qed.

Lemma sq_le_abs (K u v : R) :
  0 <= K -> Rabs u <= K * Rabs v -> u * u <= K * K * (v * v).
Proof.
  intros HK H. rewrite <- (sq_abs u), <- (sq_abs v).
  pose proof (Rabs_pos u) as Hu.
  replace (K * K * (Rabs v * Rabs v)) with (K * Rabs v * (K * Rabs v)) by ring.
  apply Rmult_le_compat; assumption.
Qed.

Lemma sq_ge_abs (K u v : R) :
  0 <= K -> K * Rabs v <= Rabs u -> K * K * (v * v) <= u * u.
Proof.
  intros HK H. rewrite <- (sq_abs u), <- (sq_abs v).
  pose proof (Rabs_pos v) as Hv.
  assert (H0 : 0 <= K * Rabs v) by (apply Rmult_le_pos; assumption).
  replace (K * K * (Rabs v * Rabs v)) with (K * Rabs v * (K * Rabs v)) by ring.
  apply Rmult_le_compat; assumption.
Qed.

(** Under [tip_errors_larger] the squared error is at most [K^2] times the
    squared reference over the interior cells, and at least that over the
    others. *)
Lemma region_bounds (a K : R) (eta : list R) :
  0 <= K ->
  forall ref approx area : list R,
    Forall (fun w => 0 <= w) area ->
    Forall (fun e => 0 <= e) eta ->
    length approx = length ref -> length area = length ref ->
    length eta = length ref ->
    tip_errors_larger a K eta ref approx ->
    let m := map (fun e => fltb (Fin e) (Fin (9 / 10 * a))) eta in
    weighted_sq_sum (mask_select area m)
                    (Rdiff (mask_select approx m) (mask_select ref m))
    <= K * K * weighted_sq_sum (mask_select area m) (mask_select ref m)
    /\ K * K * weighted_sq_sum (mask_select area (map negb m))
                               (mask_select ref (map negb m))
       <= weighted_sq_sum (mask_select area (map negb m))
                          (Rdiff (mask_select approx (map negb m))
                                 (mask_select ref (map negb m))).
Proof.
  intros HK. induction eta as [| e eta IH];
    intros [| r ref] [| x approx] [| w area] Hw He Ha Hl Hm Ht;
    cbn [length] in *; try discriminate.
  - cbn. unfold weighted_sq_sum. cbn. lra.
  - inversion Hw as [| ? ? Hw0 Hw']; subst.
    inversion He as [| ? ? He0 He']; subst.
    cbn [tip_errors_larger] in Ht. destruct Ht as [Hc Ht].
    injection Ha as Ha. injection Hl as Hl. injection Hm as Hm.
    specialize (IH ref approx area Hw' He' Ha Hl Hm Ht). cbv zeta in IH.
    destruct IH as [IH1 IH2].
    rewrite Rabs_right in Hc by lra.
    assert (Eb : fltb (Fin e) (Fin (9 / 10 * a))
                 = if Rlt_dec e (9 / 10 * a) then true else false)
      by reflexivity.
    cbv zeta. cbn [map mask_select]. rewrite Eb.
    destruct (Rlt_dec e (9 / 10 * a)) as [Hlt | Hge]; cbn [negb].
    + split; [| exact IH2].
      unfold weighted_sq_sum, Rdiff in *. cbn [map2 Rsum fold_right].
      apply (@sq_le_abs K (x - r) r HK) in Hc.
      assert (w * ((x - r) * (x - r)) <= K * K * (w * (r * r))) by nra.
      unfold Rsum in *. lra.
    + split; [exact IH1 |].
      unfold weighted_sq_sum, Rdiff in *. cbn [map2 Rsum fold_right].
      apply (@sq_ge_abs K (x - r) r HK) in Hc.
      assert (K * K * (w * (r * r)) <= w * ((x - r) * (x - r))) by nra.
      unfold Rsum in *. lra.
Qed.

(** The relative error over the interior cells is at most the relative
    error over all cells when, cell by cell, the errors relative to the
    reference are at most [K] in the interior and at least [K] elsewhere. *)
Lemma masked_error_le_global_cells (a K : R) (ref approx area eta : list R)
  (e_in : R) :
  length approx = length ref -> length area = length ref ->
  length eta = length ref ->
  Forall (fun w => 0 <= w) area ->
  Forall (fun e => 0 <= e) eta ->
  0 <= K ->
  tip_errors_larger a K eta ref approx ->
  L2_error_on (map (fun e => fltb (Fin e) (Fin (9 / 10 * a))) eta)
              (map Fin ref) (map Fin approx) (map Fin area) = Ok (Fin e_in) ->
  exists e_all,
    L2_error (map Fin ref) (map Fin approx) (map Fin area) = Ok (Fin e_all)
    /\ e_in <= e_all.
Proof.
  intros Ha Hw He Hpos Heta HK Ht Hin.
  set (m := map (fun e => fltb (Fin e) (Fin (9 / 10 * a))) eta) in *.
  assert (Hm : length m = length ref) by (unfold m; now rewrite length_map).
  destruct (@region_bounds a K eta HK ref approx area Hpos Heta Ha Hw He Ht)
    as [B1 B2].
  fold m in B1, B2.
  rewrite L2_error_on_Fin in Hin by assumption.
  apply L2_error_Fin_inv in Hin;
    try (apply mask_select_length2; assumption);
    try (apply mask_select_Forall; assumption).
  destruct Hin as [Hdi Hin].
  assert (Sd := @weighted_sq_sum_split area ref m Hw Hm).
  assert (Sn1 : length area = length (Rdiff approx ref))
    by (rewrite Rdiff_length by assumption; congruence).
  assert (Sn2 : length m = length (Rdiff approx ref))
    by (rewrite Rdiff_length by assumption; congruence).
  assert (Sn := @weighted_sq_sum_split area (Rdiff approx ref) m Sn1 Sn2).
  rewrite !mask_select_Rdiff in Sn.
  set (DI := weighted_sq_sum (mask_select area m)
               (Rdiff (mask_select approx m) (mask_select ref m))) in *.
  set (RI := weighted_sq_sum (mask_select area m) (mask_select ref m)) in *.
  set (DT := weighted_sq_sum (mask_select area (map negb m))
               (Rdiff (mask_select approx (map negb m))
                      (mask_select ref (map negb m)))) in *.
  set (RT := weighted_sq_sum (mask_select area (map negb m))
               (mask_select ref (map negb m))) in *.
  assert (HDI : 0 <= DI)
    by (apply weighted_sq_sum_nonneg, mask_select_Forall; assumption).
  assert (HDT : 0 <= DT)
    by (apply weighted_sq_sum_nonneg, mask_select_Forall; assumption).
  assert (HRT : 0 <= RT)
    by (apply weighted_sq_sum_nonneg, mask_select_Forall; assumption).
  exists (sqrt (weighted_sq_sum area (Rdiff approx ref))
          / sqrt (weighted_sq_sum area ref)).
  split.
  - apply L2_error_real; try assumption. lra.
  - rewrite Sn, Sd, Hin. apply sqrt_mediant_cross; try assumption.
    assert (H1 : DI * RT <= K * K * RI * RT) by (apply Rmult_le_compat_r; lra).
    assert (H2 : RI * (K * K * RT) <= RI * DT) by (apply Rmult_le_compat_l; lra).
    lra.
Qed.

End NormFacts.

(* ================================================================== *)
(** * The fracture of the two-dimensional tests *)

Module ModelFacts.

Import Np Arr Grids Sneddon SpecDefs NpFacts ArrFacts.
Open Scope R_scope.

(** ** Geometry *)

(** C8.  Without the inclusion flag [fracture_2d] returns the empty list.
    With it, it returns exactly one [2 x 2] array, whose columns are the
    end points [(length/2, height/2) -+ a*(sin(beta), cos(beta))]; the
    middle of the two end points is the middle of the domain. *)
Theorem fracture_2d_spec :
  (forall length height a beta : npfloat,
      fracture_2d length height a beta false = [])
  /\ (forall length height a beta : R,
         let x_0 := length / 2 - a * sin beta in
         let y_0 := height / 2 - a * cos beta in
         let x_1 := length / 2 + a * sin beta in
         let y_1 := height / 2 + a * cos beta in
         fracture_2d (Fin length) (Fin height) (Fin a) (Fin beta) true
         = [ [ [Fin x_0; Fin x_1];
               [Fin y_0; Fin y_1] ] ]
         /\ (x_0 + x_1) / 2 = length / 2
         /\ (y_0 + y_1) / 2 = height / 2).
Proof.
  split.
  - reflexivity.
  - intros length height a beta x_0 y_0 x_1 y_1. split; [| split].
    + unfold fracture_2d, f2. rewrite !fdiv_Fin by lra. reflexivity.
    + unfold x_0, x_1. lra.
    + unfold y_0, y_1. lra.
Qed.

End ModelFacts.

(* ================================================================== *)
(** * The convergence loop *)

Module LoopFacts.

Import Np Arr Norms Grids Sneddon SpecDefs NpFacts ArrFacts NormFacts.
Import ModelFacts.
Open Scope R_scope.

(** ** Stepping through statements *)

Lemma bind_lift_Ok {A B : Type} (r : result A) (a : A) (k : A -> M B)
  (s : records) :
  r = Ok a -> bind (lift r) k s = k a s.
Proof. intros ->. reflexivity. Qed.

Lemma bind_lift_Raise {A B : Type} (r : result A) (e : exn) (k : A -> M B)
  (s : records) :
  r = Raise e -> bind (lift r) k s = (s, Raise e).
Proof. intros ->. reflexivity. Qed.

Lemma bind_modify {B : Type} (f : records -> records) (k : unit -> M B)
  (s : records) :
  bind (modify f) k s = k tt (f s).
Proof. reflexivity. Qed.

Lemma bind_assert_true {B : Type} (b : bool) (k : unit -> M B) (s : records) :
  b = true -> bind (py_assert b) k s = k tt s.
Proof. intros ->. reflexivity. Qed.

Lemma bind_assert_false {B : Type} (b : bool) (k : unit -> M B) (s : records) :
  b = false -> bind (py_assert b) k s = (s, Raise AssertionError).
Proof. intros ->. reflexivity. Qed.

Lemma bind_Raise {A B : Type} (m : M A) (k : A -> M B) (s s' : records) (e : exn) :
  m s = (s', Raise e) -> bind m k s = (s', Raise e).
Proof. unfold bind. intros ->. reflexivity. Qed.


(** ** Subscripts *)

Lemma getitem_0_cons {A : Type} (x : A) (l : list A) : getitem (x :: l) 0 = Ok x.
Proof.
  unfold getitem, py_index. cbn [Z.leb Z.compare length].
  destruct (0 <? Z.of_nat (S (length l)))%Z eqn:E.
  - reflexivity.
  - apply Z.ltb_ge in E. lia.
Qed.

Lemma getitem_0_nil {A : Type} : getitem (@nil A) 0 = Raise IndexError.
Proof. reflexivity. Qed.

Lemma getitem_0_map {A B : Type} (g : A -> B) (l : list A) :
  getitem (map g l) 0 = rbind (getitem l 0) (fun x => Ok (g x)).
Proof.
  destruct l as [| x l]; [reflexivity |].
  cbn [map]. now rewrite !getitem_0_cons.
Qed.

(** ** Buckets *)

Section Assign.

Variable set_bc : Grid -> NodeData -> NodeData.

Lemma dims_assign (gb : GridBucket) : dims (assign_parameters set_bc gb) = dims gb.
Proof.
  unfold dims, assign_parameters. cbn [nodes]. rewrite map_map. reflexivity.
Qed.

Lemma dim_max_assign (gb : GridBucket) :
  dim_max (assign_parameters set_bc gb) = dim_max gb.
Proof. unfold dim_max. now rewrite dims_assign. Qed.

Lemma dim_min_assign (gb : GridBucket) :
  dim_min (assign_parameters set_bc gb) = dim_min gb.
Proof. unfold dim_min. now rewrite dims_assign. Qed.

Lemma grids_of_dimension_assign (gb : GridBucket) (d : Z) :
  grids_of_dimension (assign_parameters set_bc gb) d
  = map (fun n => (fst n, set_bc (fst n) (snd n))) (grids_of_dimension gb d).
Proof.
  unfold grids_of_dimension, assign_parameters. cbn [nodes].
  induction (nodes gb) as [| n l IH]; [reflexivity |].
  cbn [map filter fst]. destruct (dim (fst n) =? d)%Z; cbn [map]; now rewrite IH.
Qed.

(** The grid found before the parameters are assigned is the grid that
    [solve] works on afterwards. *)
Lemma first_grid_assign (gb : GridBucket) (d : Z) (g_h : Grid) (d_h : NodeData) :
  getitem (grids_of_dimension (assign_parameters set_bc gb) d) 0 = Ok (g_h, d_h) ->
  exists d0, getitem (grids_of_dimension gb d) 0 = Ok (g_h, d0).
Proof.
  rewrite grids_of_dimension_assign, getitem_0_map.
  destruct (getitem (grids_of_dimension gb d) 0) as [[g d0] |]; cbn [rbind fst snd];
    [| discriminate].
  intros [= <- _]. now exists d0.
Qed.

End Assign.

(** ** The interior error and the global error *)

(** C6, in the form that holds.  Take real profiles over fracture cells
    with arc lengths [eta >= 0] and non-negative face areas, and suppose
    that, cell by cell, the error relative to the reference,
    [|approx - ref| / |ref|], is at most some [K] on the interior cells
    [|eta| < 0.9*a] and at least [K] on the cells of the tip region.  Then,
    in exact arithmetic, whenever the interior relative L2 error of line 260
    is a real number, so is the relative L2 error over all cells, and the
    interior error is at most it. *)
Theorem interior_error_le_global (G : Globals) (a K : R)
  (ref approx area eta : list R) (e_int : R) :
  g_a G = Fin a ->
  length approx = length ref -> length area = length ref ->
  length eta = length ref ->
  Forall (fun w => 0 <= w) area ->
  Forall (fun e => 0 <= e) eta ->
  0 <= K ->
  tip_errors_larger a K eta ref approx ->
  L2_error_on (interior_mask G (map Fin eta))
              (map Fin ref) (map Fin approx) (map Fin area) = Ok (Fin e_int) ->
  exists e_all,
    L2_error (map Fin ref) (map Fin approx) (map Fin area) = Ok (Fin e_all)
    /\ e_int <= e_all.
Proof.
  intros Hga Ha Hw He Hpos Heta HK Ht Hint.
  assert (Hmask : interior_mask G (map Fin eta)
                  = map (fun e => fltb (Fin e) (Fin (9 / 10 * a))) eta).
  { unfold interior_mask. rewrite Hga, map_map. reflexivity. }
  rewrite Hmask in Hint.
  exact (@masked_error_le_global_cells a K ref approx area eta e_int
           Ha Hw He Hpos Heta HK Ht Hint).
Qed.

End LoopFacts.

(* ================================================================== *)
(** * The names that are bound nowhere *)

(** [compute_eta] reads the name [cg], which the script never binds (the
    package binds it as [pp.cg] only), and [solve] reads [pp.FracturedMpsa],
    which [porepy/__init__.py] does not bind.  What follows from the two. *)
Module DefectFacts.

Import Np Arr Norms Grids Names Sneddon SpecDefs.
Import NpFacts ArrFacts NormFacts LoopFacts.

Lemma global_cg : global n_cg = Raise NameError.
Proof. reflexivity. Qed.

Lemma pp_cg_bound : pp_attr n_cg = Ok tt.
Proof. reflexivity. Qed.

Lemma pp_FracturedMpsa : pp_attr a_FracturedMpsa = Raise AttributeError.
Proof. reflexivity. Qed.

Lemma dim_max_raises (gb : GridBucket) (e : exn) :
  dim_max gb = Raise e -> e = ValueError.
Proof. unfold dim_max. destruct (dims gb); [now intros [= <-] | discriminate]. Qed.

Lemma getitem_raises {A : Type} (l : list A) (i : Z) (e : exn) :
  getitem l i = Raise e -> e = IndexError.
Proof.
  unfold getitem, py_index.
  destruct (0 <=? i)%Z.
  - destruct (i <? Z.of_nat (length l))%Z; cbn [rbind].
    + destruct (nth_error l (Z.to_nat i)); [discriminate | now intros [= <-]].
    + now intros [= <-].
  - destruct (- Z.of_nat (length l) <=? i)%Z; cbn [rbind].
    + destruct (nth_error l (Z.to_nat (Z.of_nat (length l) + i)));
        [discriminate | now intros [= <-]].
    + now intros [= <-].
Qed.

(** C10.  [compute_eta] returns for no grid: whatever the grid and the
    centre, the call ends in [NameError] at line 226, before any distance is
    computed. *)
Theorem compute_eta_raises_NameError (G : Globals) (g_h : Grid) :
  compute_eta G g_h = Raise NameError.
Proof. unfold compute_eta. rewrite global_cg. reflexivity. Qed.

(** C1.  [analytical_displacements] returns no aperture: every call ends in
    an exception, and on a bucket whose first grid of highest dimension has
    a shear modulus and a Poisson ratio the exception is the [NameError] of
    [compute_eta] (line 154), before the profile of line 159 is formed. *)
Theorem analytical_displacements_never_returns (G : Globals) (gb : GridBucket)
  (a : npfloat) :
  (forall r, analytical_displacements G gb a <> Ok r)
  /\ (forall (D : Z) (g_h : Grid) (d_h : NodeData) (mu nu : npfloat),
         dim_max gb = Ok D ->
         getitem (grids_of_dimension gb D) 0 = Ok (g_h, d_h) ->
         shear_modulus d_h = Some mu -> Poisson d_h = Some nu ->
         analytical_displacements G gb a = Raise NameError).
Proof.
  unfold analytical_displacements. split.
  - intros r.
    destruct (dim_max gb) as [D |]; cbn [rbind]; [| discriminate].
    destruct (getitem (grids_of_dimension gb D) 0) as [[g_h d_h] |];
      cbn [rbind]; [| discriminate].
    destruct (shear_modulus d_h); cbn [rbind dict_get]; [| discriminate].
    destruct (Poisson d_h); cbn [rbind dict_get]; [| discriminate].
    unfold compute_eta. rewrite global_cg. discriminate.
  - intros D g_h d_h mu nu Hd Hg Hmu Hnu.
    rewrite Hd. cbn [rbind]. rewrite Hg. cbn [rbind].
    rewrite Hmu, Hnu. cbn [rbind dict_get].
    unfold compute_eta. rewrite global_cg. reflexivity.
Qed.

(** C2.  Whatever the inclination, the bucket and the linear solver,
    [solve] ends in [AttributeError] at line 200: neither the absolute
    difference of the vertical case nor the Euclidean norm of the oblique
    case is computed. *)
Theorem solve_raises_AttributeError (G : Globals)
  (mpsa_spsolve : Grid -> NodeData -> result (list npfloat))
  (gb : GridBucket) (dim_h : Z) :
  solve G mpsa_spsolve gb dim_h = Raise AttributeError.
Proof. unfold solve. rewrite pp_FracturedMpsa. reflexivity. Qed.

Section Loop.

Variable G : Globals.
Variable set_bc : Grid -> NodeData -> NodeData.
Variable mpsa_spsolve : Grid -> NodeData -> result (list npfloat).
Variable item : Type.
Variable write_vtk : GridBucket -> list npfloat -> list npfloat -> result unit.
Variable function : item -> GridBucket.

Local Abbreviation body := (loop_body G set_bc mpsa_spsolve function).
Local Abbreviation run_loop := (loop G set_bc mpsa_spsolve function).
Local Abbreviation run :=
  (fun nc => run_multiple_and_plot G set_bc mpsa_spsolve write_vtk nc function).

(** Every iteration ends in an exception before line 251, with the lists as
    they were: [ValueError] or [IndexError] on a bucket without grids, and
    the [AttributeError] of [solve] otherwise. *)
Lemma loop_body_raises (it : item) (s : records) :
  exists e,
    body it s = (s, Raise e)
    /\ e <> AssertionError
    /\ (forall D n, dim_max (function it) = Ok D ->
                    getitem (grids_of_dimension (function it) D) 0 = Ok n ->
                    e = AttributeError).
Proof.
  unfold loop_body.
  destruct (dim_max (function it)) as [D | e] eqn:Hdim.
  - rewrite (bind_lift_Ok _ _ eq_refl).
    destruct (getitem (grids_of_dimension (function it) D) 0) as [n | e] eqn:Hg.
    + rewrite (bind_lift_Ok _ _ eq_refl). cbv beta zeta.
      rewrite (bind_lift_Ok _ _ (eq_trans (dim_max_assign set_bc (function it)) Hdim)).
      exists AttributeError. split; [| split; [discriminate | reflexivity]].
      apply bind_lift_Raise. unfold solve. rewrite pp_FracturedMpsa. reflexivity.
    + exists e. split; [apply bind_lift_Raise; reflexivity |].
      assert (He := getitem_raises _ _ Hg). subst e. split; [discriminate |].
      intros D' n' [= <-] Hn. rewrite Hg in Hn. discriminate.
  - exists e. split; [apply bind_lift_Raise; reflexivity |].
    assert (He := dim_max_raises _ Hdim). subst e.
    split; [discriminate | intros D n [=]].
Qed.



(** The loop returns only over no resolution, and leaves the lists as they
    are. *)
Lemma loop_outcome (nc : list item) (last : option locals) (s s' : records)
  (r : result (option locals)) :
  run_loop nc last s = (s', r) ->
  s' = s /\ (nc = [] -> r = Ok last) /\ (nc <> [] -> exists e, r = Raise e).
Proof.
  destruct nc as [| it nc]; cbn [loop]; intros H.
  - unfold ret in H. injection H as <- <-.
    split; [reflexivity | split; [reflexivity | contradiction]].
  - destruct (loop_body_raises it s) as (e & Hb & _).
    erewrite bind_Raise in H by exact Hb. injection H as <- <-.
    split; [reflexivity | split; [discriminate | eauto]].
Qed.

(** C5.  The loop appends no interior error: whatever the resolutions,
    [errors_el] is after the loop what it was before, and over at least one
    resolution the loop ends in an exception. *)
Theorem interior_error_never_appended (nc : list item) (last : option locals)
  (s s' : records) (r : result (option locals)) :
  run_loop nc last s = (s', r) ->
  errors_el s' = errors_el s /\ (nc <> [] -> exists e, r = Raise e).
Proof.
  intros H. apply loop_outcome in H. destruct H as (-> & _ & H).
  split; [reflexivity | exact H].
Qed.

End Loop.

End DefectFacts.

(* ================================================================== *)
(** * More on the fracture geometry *)

Module GeometryFacts.

Import Np Arr Grids Sneddon SpecDefs NpFacts ArrFacts.
Open Scope R_scope.


Lemma Rabs_bound_inv (x b : R) : Rabs x <= b -> - b <= x <= b.
Proof. unfold Rabs. destruct (Rcase_abs x); lra. Qed.

Lemma Rabs_mul_sin_le (a beta : R) : Rabs (a * sin beta) <= Rabs a.
Proof.
  rewrite Rabs_mult. pose proof (SIN_bound beta) as [H1 H2].
  assert (Rabs (sin beta) <= 1) by (apply Rabs_le; lra).
  pose proof (Rabs_pos a). nra.
Qed.

Lemma Rabs_mul_cos_le (a beta : R) : Rabs (a * cos beta) <= Rabs a.
Proof.
  rewrite Rabs_mult. pose proof (COS_bound beta) as [H1 H2].
  assert (Rabs (cos beta) <= 1) by (apply Rabs_le; lra).
  pose proof (Rabs_pos a). nra.
Qed.

(** X2.  When the half-length is at most half the width and half the height
    of the domain, both end points of the fracture lie in the domain
    [[0, length] x [0, height]]. *)
Theorem fracture_2d_in_domain (length height a beta : R) :
  Rabs a <= length / 2 -> Rabs a <= height / 2 ->
  exists x_0 x_1 y_0 y_1,
    fracture_2d (Fin length) (Fin height) (Fin a) (Fin beta) true
    = [ [ [Fin x_0; Fin x_1]; [Fin y_0; Fin y_1] ] ]
    /\ 0 <= x_0 <= length /\ 0 <= x_1 <= length
    /\ 0 <= y_0 <= height /\ 0 <= y_1 <= height.
Proof.
  intros Hl Hh.
  exists (length / 2 - a * sin beta), (length / 2 + a * sin beta),
    (height / 2 - a * cos beta), (height / 2 + a * cos beta).
  split.
  - unfold fracture_2d, f2. rewrite !fdiv_Fin by lra. reflexivity.
  - pose proof (Rabs_mul_sin_le a beta) as Hs.
    pose proof (Rabs_mul_cos_le a beta) as Hc.
    apply Rabs_bound_inv in Hs, Hc. lra.
Qed.

Lemma fracture_2d_in_domain_witness :
  exists x_0 x_1 y_0 y_1,
    fracture_2d (Fin 50) (Fin 50) (Fin 3) (Fin (PI / 2)) true
    = [ [ [Fin x_0; Fin x_1]; [Fin y_0; Fin y_1] ] ]
    /\ 0 <= x_0 <= 50 /\ 0 <= x_1 <= 50
    /\ 0 <= y_0 <= 50 /\ 0 <= y_1 <= 50.
Proof.
  apply (@fracture_2d_in_domain 50 50 3 (PI / 2)).
  - rewrite Rabs_right by lra. lra.
  - rewrite Rabs_right by lra. lra.
Defined.



End GeometryFacts.

(* ================================================================== *)
(** * More on the error norms *)

Module NormShapeFacts.

Import Np Arr Norms Grids Sneddon SpecDefs RealDefs.
Import NpFacts ArrFacts NormFacts.
Open Scope R_scope.

Lemma broadcasts_dec (m n : nat) : {broadcasts m n} + {~ broadcasts m n}.
Proof.
  unfold broadcasts.
  destruct (Nat.eq_dec m n), (Nat.eq_dec m 1), (Nat.eq_dec n 1); auto;
    right; intros [H | [H | H]]; contradiction.
Qed.

Lemma broadcast2_returns {A B C : Type} (f : A -> B -> C)
  (xs : list A) (ys : list B) :
  broadcasts (length xs) (length ys) ->
  exists l, broadcast2 f xs ys = Ok l
            /\ length l = broadcast_length (length xs) (length ys).
Proof.
  unfold broadcasts, broadcast2, broadcast_length. intros H.
  destruct (Nat.eqb (length xs) (length ys)) eqn:E.
  - apply Nat.eqb_eq in E. eexists. split; [reflexivity |].
    now apply map2_length.
  - apply Nat.eqb_neq in E. destruct H as [H | [H | H]]; [contradiction | |].
    + destruct xs as [| x [| x' xs]]; try discriminate.
      eexists. split; [reflexivity |]. now rewrite length_map.
    + destruct ys as [| y [| y' ys]]; try discriminate.
      destruct xs as [| x [| x' xs]].
      * eexists. split; reflexivity.
      * cbn in E. contradiction.
      * eexists. split; [reflexivity |]. now rewrite length_map.
Qed.

Lemma broadcast2_raises {A B C : Type} (f : A -> B -> C)
  (xs : list A) (ys : list B) :
  ~ broadcasts (length xs) (length ys) -> broadcast2 f xs ys = Raise ValueError.
Proof.
  unfold broadcasts, broadcast2. intros H.
  destruct (Nat.eqb (length xs) (length ys)) eqn:E.
  - apply Nat.eqb_eq in E. exfalso. auto.
  - destruct xs as [| x [| x' xs]].
    + destruct ys as [| y [| y' ys]]; try reflexivity.
      exfalso. apply H. right. right. reflexivity.
    + exfalso. apply H. right. left. reflexivity.
    + destruct ys as [| y [| y' ys]]; try reflexivity.
      exfalso. apply H. right. right. reflexivity.
Qed.

Lemma L2_norm_returns (val area : list npfloat) :
  broadcasts (length area) (length val) -> exists n, L2_norm val area = Ok n.
Proof.
  intros H. unfold L2_norm, np_multiply.
  destruct (@broadcast2_returns _ _ _ fmul area (np_square val)) as (l & -> & _).
  - unfold np_square. now rewrite length_map.
  - eexists. reflexivity.
Qed.

Lemma L2_norm_raises (val area : list npfloat) :
  ~ broadcasts (length area) (length val) -> L2_norm val area = Raise ValueError.
Proof.
  intros H. unfold L2_norm, np_multiply.
  rewrite broadcast2_raises; [reflexivity |].
  unfold np_square. now rewrite length_map.
Qed.

(** X13.  [L2_error] returns exactly when the shapes broadcast: the two
    profiles with each other, and the weights with their difference and
    with the reference.  In every other case it raises [ValueError]; it
    raises nothing else. *)
Theorem L2_error_shapes (v_ref v_approx area : list npfloat) :
  let m := length v_approx in
  let r := length v_ref in
  let w := length area in
  let fits := broadcasts m r /\ broadcasts w (broadcast_length m r)
              /\ broadcasts w r in
  (fits -> exists e, L2_error v_ref v_approx area = Ok e)
  /\ (~ fits -> L2_error v_ref v_approx area = Raise ValueError).
Proof.
  intros m r w fits. unfold L2_error. split.
  - intros (H1 & H2 & H3).
    destruct (@broadcast2_returns _ _ _ fsub v_approx v_ref H1) as (d & Ed & Ld).
    unfold np_sub. rewrite Ed. cbn [rbind].
    destruct (@L2_norm_returns d area) as (n & ->); [now rewrite Ld |].
    cbn [rbind].
    destruct (@L2_norm_returns v_ref area H3) as (n' & ->). cbn [rbind].
    eexists. reflexivity.
  - intros Hnot.
    destruct (broadcasts_dec m r) as [H1 | H1].
    + destruct (@broadcast2_returns _ _ _ fsub v_approx v_ref H1) as (d & Ed & Ld).
      unfold np_sub. rewrite Ed. cbn [rbind].
      destruct (broadcasts_dec w (length d)) as [H2 | H2].
      * destruct (@L2_norm_returns d area H2) as (n & ->). cbn [rbind].
        rewrite L2_norm_raises; [reflexivity |].
        intros H3. apply Hnot. unfold fits. rewrite Ld in H2. auto.
      * now rewrite L2_norm_raises.
    + unfold np_sub. now rewrite broadcast2_raises.
Qed.

Lemma fsqrt_0 : fsqrt (Fin 0) = Fin 0.
Proof. rewrite fsqrt_Fin by lra. now rewrite sqrt_0. Qed.

Lemma fdiv_0_0 : fdiv (Fin 0) (Fin 0) = NaN.
Proof.
  unfold fdiv. destruct (Req_dec_T 0 0) as [_ | H]; [| contradiction].
  unfold Rsgn. destruct (Rlt_dec 0 0); [lra | reflexivity].
Qed.



Lemma mask_select_none {A : Type} (l : list A) (m : list bool) :
  Forall (fun b => b = false) m -> mask_select l m = [].
Proof.
  intros H. revert l. induction H as [| b m -> H IH]; intros [| x l];
    cbn [mask_select]; auto.
Qed.

Lemma L2_error_empty : L2_error [] [] [] = Ok NaN.
Proof.
  unfold L2_error, L2_norm, np_sub, np_multiply, np_square, broadcast2, np_sum.
  cbn [length Nat.eqb map map2 rbind fold_left]. unfold f0.
  now rewrite fsqrt_0, fdiv_0_0.
Qed.

(** X17.  When no fracture cell lies in the interior, that is when every
    arc length is at least [0.9*a], the interior error is [nan]: the
    restriction of line 260 leaves empty arrays, and nothing is raised. *)
Theorem interior_error_without_interior (G : Globals) (a : R) (etas : list R)
  (v_ref v_approx area : list npfloat) :
  g_a G = Fin a ->
  Forall (fun e => 9 / 10 * a <= e) etas ->
  length v_ref = length etas -> length v_approx = length etas ->
  length area = length etas ->
  L2_error_on (interior_mask G (map Fin etas)) v_ref v_approx area = Ok NaN.
Proof.
  intros Hga Hall Hr Ha Hw.
  assert (Hmask : Forall (fun b => b = false) (interior_mask G (map Fin etas))).
  { unfold interior_mask. rewrite Hga, map_map. apply Forall_map.
    eapply Forall_impl; [| exact Hall].
    intros e He. cbn [fmul]. now apply fltb_Fin_false. }
  unfold L2_error_on, getmask.
  assert (Lm : length (interior_mask G (map Fin etas)) = length etas)
    by (unfold interior_mask; now rewrite !length_map).
  rewrite Lm, Hr, Ha, Hw, Nat.eqb_refl. cbn [rbind].
  rewrite !mask_select_none by assumption. apply L2_error_empty.
Qed.

End NormShapeFacts.

(* ================================================================== *)
(** * The run as a whole *)

Module RunFacts.

Import Np Arr Norms Grids Sneddon SpecDefs RealDefs.
Import NpFacts ArrFacts NormFacts LoopFacts DefectFacts.
Open Scope R_scope.

Section Run.

Variable G : Globals.
Variable set_bc : Grid -> NodeData -> NodeData.
Variable mpsa_spsolve : Grid -> NodeData -> result (list npfloat).
Variable item : Type.
Variable write_vtk : GridBucket -> list npfloat -> list npfloat -> result unit.
Variable function : item -> GridBucket.

Local Abbreviation body := (loop_body G set_bc mpsa_spsolve function).
Local Abbreviation run_loop := (loop G set_bc mpsa_spsolve function).
Local Abbreviation run :=
  (fun nc => run_multiple_and_plot G set_bc mpsa_spsolve write_vtk nc function).


(** X20.  Called with no resolution the function does not return: when
    plotting is on, the plotting block fails at [errors_el[0]] with
    [IndexError]; when it is off, the call of [save] fails with
    [UnboundLocalError], since [gb], [u] and [e] were never assigned. *)
Theorem run_without_resolutions :
  run [] no_records
  = (no_records, Raise (if g_plot G then IndexError else UnboundLocalError)).
Proof.
  unfold run_multiple_and_plot, bind. cbn [loop ret].
  destruct (g_plot G); reflexivity.
Qed.


End Run.

End RunFacts.

(* ================================================================== *)
(** * The claims at the configuration *)

Module Witnesses.

Import Np Arr Norms Grids Sneddon SpecDefs Config.
Import NpFacts ArrFacts NormFacts ModelFacts LoopFacts DefectFacts.
Open Scope R_scope.



Lemma ex_dim_assigned (n : Z) :
  dim_max (assign_parameters set_unit_data (mesh n)) = Ok 2%Z.
Proof. reflexivity. Qed.

Lemma ex_first_assigned (n : Z) :
  getitem (grids_of_dimension (assign_parameters set_unit_data (mesh n)) 2) 0
  = Ok (g_rock n, unit_data).
Proof. reflexivity. Qed.

Lemma ex_interior_mask :
  interior_mask G_main (map Fin [1; 3]) = [true; false].
Proof.
  unfold interior_mask. cbn [map g_a G_main fmul].
  rewrite (proj2 (fltb_Fin 1 (9 / 10 * 3))) by lra.
  rewrite (proj2 (fltb_Fin_false 3 (9 / 10 * 3))) by lra. reflexivity.
Qed.

Lemma ex_unit_error : relative_L2 [1] [2] [1] = 1.
Proof.
  unfold relative_L2, area_norm, weighted_sq_sum, Rdiff.
  cbn [map2 Rsum fold_right].
  replace (1 * ((2 - 1) * (2 - 1)) + 0) with 1 by lra.
  replace (1 * (1 * 1) + 0) with 1 by lra.
  rewrite sqrt_1. lra.
Qed.

(** The interior error of an approximation that is off by 1 in the one
    interior cell, where the reference is 1. *)
Lemma ex_interior_error (r x : R) :
  L2_error_on (interior_mask G_main (map Fin [1; 3]))
              (map Fin [1; r]) (map Fin [2; x]) (map Fin [1; 1])
  = Ok (Fin 1).
Proof.
  rewrite ex_interior_mask.
  change (L2_error (map Fin [1]) (map Fin [2]) (map Fin [1]) = Ok (Fin 1)).
  rewrite L2_error_real; try reflexivity.
  - now rewrite ex_unit_error.
  - repeat constructor; lra.
  - unfold weighted_sq_sum. simpl. lra.
Qed.

Lemma ex_global_error :
  relative_L2 [1; 100] [2; 102] [1; 1] = sqrt 5 / sqrt 10001.
Proof.
  unfold relative_L2, area_norm, weighted_sq_sum, Rdiff.
  cbn [map2 Rsum fold_right].
  replace (1 * ((2 - 1) * (2 - 1)) + (1 * ((102 - 100) * (102 - 100)) + 0))
    with 5 by lra.
  replace (1 * (1 * 1) + (1 * (100 * 100) + 0)) with 10001 by lra.
  reflexivity.
Qed.

Lemma ex_global_error_small : sqrt 5 / sqrt 10001 < 1.
Proof.
  assert (H0 : 0 < sqrt 10001) by (apply sqrt_lt_R0; lra).
  assert (H1 : sqrt 5 < sqrt 10001) by (apply sqrt_lt_1; lra).
  unfold Rdiv. replace 1 with (sqrt 10001 * / sqrt 10001) by (field; lra).
  apply Rmult_lt_compat_r; [apply Rinv_0_lt_compat |]; assumption.
Qed.

(** ** C6 *)

(** C6 as it is written fails: with a fracture of half-length 3 and
    cells at the arc lengths 1 and 3, the reference [1, 100] and the
    approximation [2, 102] have the larger error in the tip cell (2 against
    1), yet the interior relative L2 error is 1 and the relative L2 error
    over both cells is [sqrt 5 / sqrt 10001], which is smaller.  On the
    binary64 numbers the code returns 1.0 and 0.02235..., in that order. *)
Lemma interior_error_le_global_counterexample :
  Rabs (2 - 1) < Rabs (102 - 100)
  /\ L2_error_on (interior_mask G_main (map Fin [1; 3]))
                 (map Fin [1; 100]) (map Fin [2; 102]) (map Fin [1; 1])
     = Ok (Fin 1)
  /\ L2_error (map Fin [1; 100]) (map Fin [2; 102]) (map Fin [1; 1])
     = Ok (Fin (sqrt 5 / sqrt 10001))
  /\ sqrt 5 / sqrt 10001 < 1
  /\ F64.lt_result
       (F64.L2_error F64Data.tip_ref F64Data.tip_approx F64Data.unit_area)
       (F64.L2_error_on
          (F64.interior_mask F64Data.half_length F64Data.arc_lengths)
          F64Data.tip_ref F64Data.tip_approx F64Data.unit_area)
     = true.
Proof.
  split; [| split; [| split; [| split]]].
  - rewrite !Rabs_right by lra. lra.
  - apply ex_interior_error.
  - rewrite <- ex_global_error. apply L2_error_real; try reflexivity.
    + repeat constructor; lra.
    + unfold weighted_sq_sum. simpl. lra.
  - exact ex_global_error_small.
  - vm_compute. reflexivity.
Qed.

Lemma interior_error_le_global_witness :
  exists e_all,
    L2_error (map Fin [1; 1]) (map Fin [2; 4]) (map Fin [1; 1]) = Ok (Fin e_all)
    /\ 1 <= e_all.
Proof.
  apply (@interior_error_le_global G_main 3 1 [1; 1] [2; 4] [1; 1] [1; 3] 1).
  - reflexivity.
  - reflexivity.
  - reflexivity.
  - reflexivity.
  - repeat constructor; lra.
  - repeat constructor; lra.
  - lra.
  - cbn [tip_errors_larger]. rewrite !Rabs_right by lra.
    destruct (Rlt_dec 1 (9 / 10 * 3)); [| lra].
    destruct (Rlt_dec 3 (9 / 10 * 3)); [lra |].
    repeat split; lra.
  - apply ex_interior_error.
Defined.

(** ** C7 *)


(** ** The calls that never return *)

Lemma compute_eta_raises_NameError_witness :
  compute_eta G_main (g_rock 1) = Raise NameError.
Proof. exact (compute_eta_raises_NameError G_main (g_rock 1)). Defined.

Lemma analytical_displacements_never_returns_witness :
  analytical_displacements G_main (assign_parameters set_unit_data (mesh 1))
                           (Fin 3)
  = Raise NameError.
Proof.
  exact (proj2 (analytical_displacements_never_returns G_main
                  (assign_parameters set_unit_data (mesh 1)) (Fin 3))
               2%Z (g_rock 1) unit_data (Fin 1) (Fin 0)
               (ex_dim_assigned 1) (ex_first_assigned 1) eq_refl eq_refl).
Defined.

Lemma solve_raises_AttributeError_witness :
  solve G_quarter solver (assign_parameters set_unit_data (mesh 1)) 2
  = Raise AttributeError.
Proof.
  exact (solve_raises_AttributeError G_quarter solver
           (assign_parameters set_unit_data (mesh 1)) 2).
Defined.



Lemma interior_error_never_appended_witness :
  loop G_main set_unit_data solver mesh [1%Z] None no_records
  = (no_records, Raise AttributeError)
  /\ errors_el no_records = [].
Proof.
  assert (H : loop G_main set_unit_data solver mesh [1%Z] None no_records
              = (no_records, Raise AttributeError)) by reflexivity.
  split; [exact H |].
  exact (proj1 (@interior_error_never_appended G_main set_unit_data solver Z
                  mesh [1%Z] None no_records no_records
                  (Raise AttributeError) H)).
Defined.

End Witnesses.

(* ================================================================== *)
(** * The further properties at the configuration *)

Module MoreWitnesses.

Import Np Arr Norms Grids Sneddon SpecDefs Config RealDefs.
Import NpFacts ArrFacts NormFacts ModelFacts LoopFacts.
Import NormShapeFacts RunFacts.
Open Scope R_scope.

Lemma L2_error_shapes_witness :
  exists e, L2_error [Fin 1; Fin 1] [Fin 1; Fin 2] [Fin 1; Fin 1] = Ok e.
Proof.
  apply (proj1 (L2_error_shapes [Fin 1; Fin 1] [Fin 1; Fin 2] [Fin 1; Fin 1])).
  repeat split; left; reflexivity.
Defined.


Lemma interior_error_without_interior_witness :
  L2_error_on (interior_mask G_main (map Fin [3; 3]))
              [Fin 1; Fin 1] [Fin 1; Fin 2] [Fin 1; Fin 1]
  = Ok NaN.
Proof.
  apply (@interior_error_without_interior G_main 3 [3; 3]
           [Fin 1; Fin 1] [Fin 1; Fin 2] [Fin 1; Fin 1] eq_refl
           ltac:(repeat apply Forall_cons; try apply Forall_nil; lra)
           eq_refl eq_refl eq_refl).
Defined.


End MoreWitnesses.
